(** * CwaWeather-backend: the forecast handler of [server.js]

    A shallow embedding of [getWeatherByCity] (server.js, lines 34-148) and of
    the small part of the JavaScript runtime it relies on: dynamic property
    access on parsed JSON, truthiness, string conversion, the lookup of a
    key in an object literal, and the [try]/[catch] that maps failures to
    HTTP replies.

    The upstream service is a collaborator, not code of the repository: it
    is a field of the environment ([axios_get]) that answers a request with
    a fulfilled response or a rejection.  The handler returns the trace of
    its effects (outbound requests, log lines) together with what it sent. *)

From Stdlib Require Import List String Ascii ZArith Bool Lia DecimalString.
From Stdlib Require DecimalN DecimalPos.
Import ListNotations.
Open Scope string_scope.

(* ================================================================== *)
(** ** JavaScript values, as [JSON.parse] produces them *)
(* ================================================================== *)

(** A number is an integer that JavaScript holds: every integer up to
    2^53 in magnitude and, beyond, those that are doubles, 10^21 among
    them.  A JSON number with a fraction is outside the model.  A string
    is the UTF-8 text of the JavaScript string, and half a surrogate pair
    standing alone is the three bytes of its code point; server.js never
    concatenates so that two halves meet, so concatenation and equality
    agree with JavaScript.  An object is its own properties in property
    order, each key once. *)
#[warnings="-register-all"]
Inductive value : Type :=
| VUndefined
| VNull
| VBool (b : bool)
| VNumber (z : Z)
| VString (s : string)
| VArray (items : list value)
| VObject (props : list (string * value)).

(** An [Error] object as the [catch] block reads it: [error.message] and
    [error.response].  The response is there when the HTTP client rejected
    because the upstream answered with a non-success status; a [TypeError]
    raised by the handler's own property accesses has none. *)
Record AxiosResponse : Type := mkResponse {
  status : Z;
  data : value
}.

Record Error : Type := mkError {
  message : string;
  response : option AxiosResponse
}.

Definition TypeError (text : string) : Error :=
  {| message := text; response := None |}.

(** Evaluation of an expression either yields a value or throws. *)
Inductive result (A : Type) : Type :=
| Return (a : A)
| Throw (e : Error).
Arguments Return {A} a.
Arguments Throw {A} e.

Definition bind {A B : Type} (r : result A) (k : A -> result B) : result B :=
  match r with
  | Return a => k a
  | Throw e => Throw e
  end.

Notation "'let*' x ':=' r 'in' k" := (bind r (fun x => k))
  (at level 10, x name, r at level 100, k at level 200).

(** *** Truthiness ([!x], [x || y], [if (x)]) *)

Definition truthy (v : value) : bool :=
  match v with
  | VUndefined | VNull => false
  | VBool b => b
  | VNumber z => negb (z =? 0)%Z
  | VString s => negb (s =? "")
  | VArray _ | VObject _ => true
  end.

(** [a || b] on already evaluated operands. *)
Definition or_else (a b : value) : value := if truthy a then a else b.

(** *** Text ([s.length], [s[i]]) *)

Definition reverse (s : string) : string :=
  string_of_list_ascii (rev (list_ascii_of_string s)).

Definition byte (c : ascii) : N := N_of_ascii c.

(** A byte of the form 10xxxxxx continues the character before it. *)
Definition continuation (c : ascii) : bool :=
  (128 <=? byte c)%N && (byte c <? 192)%N.

Fixpoint take_continuation (s : string) : string :=
  match s with
  | EmptyString => EmptyString
  | String c rest => if continuation c then String c (take_continuation rest) else EmptyString
  end.

(** The code point that four bytes spell. *)
Definition code_point (char : string) : N :=
  match char with
  | String a (String b (String c (String d _))) =>
      ((byte a mod 8) * 262144 + (byte b mod 64) * 4096
       + (byte c mod 64) * 64 + byte d mod 64)%N
  | _ => 65536%N
  end.

Definition three_bytes (u : N) : string :=
  String (ascii_of_N (224 + u / 4096))
    (String (ascii_of_N (128 + (u / 64) mod 64))
       (String (ascii_of_N (128 + u mod 64)) EmptyString)).

(** The surrogate pair of a character beyond U+FFFF. *)
Definition halves (char : string) : list string :=
  let v := (code_point char - 65536)%N in
  [three_bytes (55296 + v / 1024); three_bytes (56320 + v mod 1024)].

(** JavaScript counts and indexes a string by UTF-16 units: a character
    of up to three bytes is one unit, a character of four bytes is two. *)
Fixpoint units (s : string) : list string :=
  match s with
  | EmptyString => []
  | String c rest =>
      if continuation c then units rest
      else
        let char := String c (take_continuation rest) in
        ((if (240 <=? byte c)%N then halves char else [char]) ++ units rest)%list
  end.

Definition text_length (s : string) : nat := List.length (units s).

Definition char_at (s : string) (i : nat) : option string :=
  nth_error (units s) i.

(** *** Numbers: rounding to a double and [Number.prototype.toString] *)

(** What a conversion to a number yields: [Finite m e] is [m * 2^e]. *)
Inductive number : Type :=
| NaN
| Infinity (negative : bool)
| Finite (m e : Z).

(** [a / b] rounded to the nearest integer, a tie to the even one. *)
Definition round_div (a b : Z) : Z :=
  let q := (a / b)%Z in
  let r := (a mod b)%Z in
  if (2 * r <? b)%Z then q
  else if (b <? 2 * r)%Z then (q + 1)%Z
  else if Z.even q then q else (q + 1)%Z.

(** The double nearest to [a / b], for positive [a] and [b], as a
    significand of at most 53 bits and an exponent of at least -1074. *)
Definition nearest (a b : Z) : Z * Z :=
  let E0 := (Z.log2 a - Z.log2 b)%Z in
  let reached :=
    if (0 <=? E0)%Z then (b * 2 ^ E0 <=? a)%Z else (b <=? a * 2 ^ (- E0))%Z in
  let E := if reached then E0 else (E0 - 1)%Z in
  let e := Z.max (E - 52) (-1074) in
  (if (0 <=? e)%Z then round_div a (b * 2 ^ e) else round_div (a * 2 ^ (- e)) b, e).

Definition to_double (negative : bool) (a b : Z) : number :=
  let (m, e) := nearest a b in
  if (1024 <=? Z.log2 m + e)%Z then Infinity negative
  else Finite (if negative then (- m)%Z else m) e.

Definition decimal (n : Z) : string :=
  NilZero.string_of_uint (N.to_uint (Z.to_N n)).

(** The integer with the fewest significant digits that still reads back
    as the double [D]: the multiples of [10^p] on either side of [D] are
    tried for [p] from the top; [down4] and [up4] are four times the
    distances to the midpoints with the neighbouring doubles, which count
    as reading back when the significand is even. *)
Fixpoint shortest (D down4 up4 : Z) (inclusive : bool) (p : nat) : Z :=
  let step := (10 ^ Z.of_nat p)%Z in
  let lo := (D / step * step)%Z in
  let hi := (lo + step)%Z in
  let inside v :=
    let d := (4 * v - 4 * D)%Z in
    if inclusive then ((- down4 <=? d) && (d <=? up4))%Z
    else ((- down4 <? d) && (d <? up4))%Z in
  let found :=
    if inside lo then
      if inside hi then
        if (D - lo <? hi - D)%Z then Some lo
        else if (hi - D <? D - lo)%Z then Some hi
        else if Z.even (lo / step) then Some lo else Some hi
      else Some lo
    else if inside hi then Some hi else None in
  match found, p with
  | Some v, _ => v
  | None, O => D
  | None, S p' => shortest D down4 up4 inclusive p'
  end.

Fixpoint drop_zeros (s : string) : string :=
  match s with
  | String "0" rest => drop_zeros rest
  | _ => s
  end.

(** [d.ddde+n] for an integer of more than 21 digits. *)
Definition exponent_form (text : string) : string :=
  match reverse (drop_zeros (reverse text)) with
  | String d EmptyString => String d EmptyString
  | String d more => String d ("." ++ more)
  | EmptyString => EmptyString
  end ++ "e+" ++ decimal (Z.of_nat (String.length text) - 1).

Definition two53 : Z := 9007199254740992.

(** [String(z)] for an integer: its digits below 2^53; beyond, the
    shortest digits that read back as the double, zeros after them up to
    21 digits, the exponent form from 1e21 on. *)
Definition Number_toString (z : Z) : string :=
  let a := Z.abs z in
  let sign := if (z <? 0)%Z then "-" else "" in
  if (a <? two53)%Z then sign ++ decimal a
  else
    let (m0, e0) := nearest a 1 in
    if (1024 <=? Z.log2 m0 + e0)%Z then sign ++ "Infinity"
    else
      let (m, e) :=
        if (m0 =? two53)%Z then ((two53 / 2)%Z, (e0 + 1)%Z) else (m0, e0) in
      let D := (m * 2 ^ e)%Z in
      let up4 := (2 * 2 ^ e)%Z in
      let down4 := if (m =? two53 / 2)%Z then (2 ^ e)%Z else up4 in
      let text :=
        decimal (shortest D down4 up4 (Z.even m)
                   (String.length (decimal D) - 1)) in
      sign ++ (if (String.length text <=? 21)%nat then text
               else exponent_form text).

(** *** Property access *)

Fixpoint own_property (k : string) (props : list (string * value)) : option value :=
  match props with
  | [] => None
  | (k', v) :: rest => if k' =? k then Some v else own_property k rest
  end.

(** The property key of an index. *)
Definition string_of_nat (n : nat) : string := Number_toString (Z.of_nat n).

Definition nullish_name (v : value) : string :=
  match v with VNull => "null" | _ => "undefined" end.

Definition cannot_read (v : value) (k : string) : Error :=
  TypeError ("Cannot read properties of " ++ nullish_name v
             ++ " (reading '" ++ k ++ "')").

(** [v.name] for the property names that server.js reads: [records],
    [location], [locationName], [datasetDescription], [weatherElement],
    [time], [length], [startTime], [endTime], [parameter], [parameterName],
    [elementName], [message].  None of them is a member of a built-in
    prototype, so apart from [length] of an array or of a string only own
    properties of objects answer.  Reading a property of [undefined] or of
    [null] throws a [TypeError]. *)
Definition get (v : value) (name : string) : result value :=
  match v with
  | VUndefined | VNull => Throw (cannot_read v name)
  | VBool _ | VNumber _ => Return VUndefined
  | VString s =>
      Return (if name =? "length" then VNumber (Z.of_nat (text_length s))
              else VUndefined)
  | VArray items =>
      Return (if name =? "length" then VNumber (Z.of_nat (List.length items))
              else VUndefined)
  | VObject props =>
      Return (match own_property name props with
              | Some x => x
              | None => VUndefined
              end)
  end.

(** [v[i]] for a non-negative integer [i]. *)
Definition get_index (v : value) (i : nat) : result value :=
  match v with
  | VUndefined | VNull => Throw (cannot_read v (string_of_nat i))
  | VBool _ | VNumber _ => Return VUndefined
  | VString s =>
      Return (match char_at s i with
              | Some c => VString c
              | None => VUndefined
              end)
  | VArray items => Return (nth i items VUndefined)
  | VObject props =>
      Return (match own_property (string_of_nat i) props with
              | Some x => x
              | None => VUndefined
              end)
  end.

(** *** Conversion to a primitive, to a string and to a number *)

Definition not_primitive : Error :=
  TypeError "Cannot convert object to primitive value".

(** [String(v)], as string concatenation and [Array.prototype.join] apply
    it.  An array is the comma-separated texts of its elements, where
    [undefined] and [null] elements are empty.  A parsed object answers
    with [Object.prototype.toString]; an own property called [toString]
    hides that method and, not being callable, leaves no way to convert. *)
Fixpoint to_string (v : value) : result string :=
  match v with
  | VUndefined => Return "undefined"
  | VNull => Return "null"
  | VBool b => Return (if b then "true" else "false")
  | VNumber z => Return (Number_toString z)
  | VString s => Return s
  | VArray items =>
      (fix join (l : list value) : result string :=
         match l with
         | [] => Return ""
         | x :: rest =>
             let* sx := match x with
                        | VUndefined | VNull => Return ""
                        | _ => to_string x
                        end in
             match rest with
             | [] => Return sx
             | _ :: _ => let* sr := join rest in Return (sx ++ "," ++ sr)
             end
         end) items
  | VObject props =>
      match own_property "toString" props with
      | Some _ => Throw not_primitive
      | None => Return "[object Object]"
      end
  end.

(** [v + suffix] where the right operand is a string: concatenation. *)
Definition add_string (v : value) (suffix : string) : result value :=
  let* s := to_string v in Return (VString (s ++ suffix)).

(** White space that [Number] sets aside around a numeral: the ASCII
    controls 9 to 13 and the space, and in two or three bytes U+00A0,
    U+1680, U+2000 to U+200A, U+2028, U+2029, U+202F, U+205F, U+3000 and
    U+FEFF. *)
Definition is_space (c : ascii) : bool :=
  let n := byte c in ((9 <=? n) && (n <=? 13) || (n =? 32))%N.

Definition is_space2 (a b : ascii) : bool :=
  ((byte a =? 194) && (byte b =? 160))%N.

Definition is_space3 (a b c : ascii) : bool :=
  let x := byte a in let y := byte b in let z := byte c in
  (  (x =? 225) && (y =? 154) && (z =? 128)
  || (x =? 226) && (y =? 128)
     && ((128 <=? z) && (z <=? 138) || (z =? 168) || (z =? 169) || (z =? 175))
  || (x =? 226) && (y =? 129) && (z =? 159)
  || (x =? 227) && (y =? 128) && (z =? 128)
  || (x =? 239) && (y =? 187) && (z =? 191))%N.

Fixpoint trim_start (s : string) : string :=
  match s with
  | EmptyString => EmptyString
  | String a rest =>
      if is_space a then trim_start rest
      else
        match rest with
        | String b rest' =>
            if is_space2 a b then trim_start rest'
            else
              match rest' with
              | String c rest'' =>
                  if is_space3 a b c then trim_start rest'' else s
              | EmptyString => s
              end
        | EmptyString => s
        end
  end.

Fixpoint trim_end (s : string) : string :=
  match s with
  | EmptyString => EmptyString
  | String c rest =>
      if trim_start s =? "" then EmptyString else String c (trim_end rest)
  end.

Definition trim (s : string) : string := trim_end (trim_start s).

Definition digit_value (c : ascii) : option Z :=
  let n := Z.of_N (byte c) in
  if ((48 <=? n) && (n <=? 57))%Z then Some (n - 48)%Z
  else if ((97 <=? n) && (n <=? 102))%Z then Some (n - 87)%Z
  else if ((65 <=? n) && (n <=? 70))%Z then Some (n - 55)%Z
  else None.

(** The digits of a base that begin a text: their value after [acc], how
    many they are after [count], and the text behind them. *)
Fixpoint read_digits (base : Z) (s : string) (acc count : Z) : Z * Z * string :=
  match s with
  | EmptyString => (acc, count, s)
  | String c rest =>
      match digit_value c with
      | Some d =>
          if (d <? base)%Z
          then read_digits base rest (acc * base + d)%Z (count + 1)%Z
          else (acc, count, s)
      | None => (acc, count, s)
      end
  end.

Definition radix_of (c : ascii) : option Z :=
  if ((c =? "x") || (c =? "X"))%char then Some 16%Z
  else if ((c =? "o") || (c =? "O"))%char then Some 8%Z
  else if ((c =? "b") || (c =? "B"))%char then Some 2%Z
  else None.

Definition integer (a : Z) : number :=
  if (a =? 0)%Z then Finite 0 0 else to_double false a 1.

(** [digits * 10^exponent]; far beyond the range of a double there is
    nothing to round. *)
Definition scaled (negative : bool) (digits exponent : Z) : number :=
  let count := Z.of_nat (String.length (decimal digits)) in
  if (digits =? 0)%Z then Finite 0 0
  else if (400 <? count + exponent)%Z then Infinity negative
  else if (count + exponent <? -400)%Z then Finite 0 0
  else if (0 <=? exponent)%Z then to_double negative (digits * 10 ^ exponent) 1
  else to_double negative digits (10 ^ (- exponent)).

(** The exponent part that ends a numeral, 0 when there is none. *)
Definition read_exponent (s : string) : option Z :=
  match s with
  | EmptyString => Some 0%Z
  | String c rest =>
      if ((c =? "e") || (c =? "E"))%char then
        let '(negative, rest') :=
          match rest with
          | String "-" r => (true, r)
          | String "+" r => (false, r)
          | _ => (false, rest)
          end in
        match read_digits 10 rest' 0 0 with
        | (x, count, EmptyString) =>
            if (count =? 0)%Z then None
            else Some (if negative then (- x)%Z else x)
        | _ => None
        end
      else None
  end.

(** An unsigned decimal numeral: [Infinity], or digits with an optional
    fraction and exponent, a digit on at least one side of the point. *)
Definition read_decimal (negative : bool) (s : string) : number :=
  if s =? "Infinity" then Infinity negative
  else
    let '(whole, n1, rest) := read_digits 10 s 0 0 in
    let '(digits, n, rest') :=
      match rest with
      | String "." r => read_digits 10 r whole n1
      | _ => (whole, n1, rest)
      end in
    if (n =? 0)%Z then NaN
    else
      match read_exponent rest' with
      | Some x => scaled negative digits (x - (n - n1))
      | None => NaN
      end.

(** The number a string spells ([StringToNumber]): blank text is 0; a
    numeral, white space around it set aside, is the double nearest to
    it, where [0x], [0o] and [0b] introduce unsigned integers in base 16,
    8 and 2; anything else is [NaN]. *)
Definition string_to_number (s : string) : number :=
  match trim s with
  | EmptyString => Finite 0 0
  | String "0" (String c rest) as text =>
      match radix_of c with
      | Some base =>
          match read_digits base rest 0 0 with
          | (a, count, EmptyString) => if (count =? 0)%Z then NaN else integer a
          | _ => NaN
          end
      | None => read_decimal false text
      end
  | String "-" rest => read_decimal true rest
  | String "+" rest => read_decimal false rest
  | text => read_decimal false text
  end.

(** [Number(v)] *)
Definition to_number (v : value) : result number :=
  match v with
  | VUndefined => Return NaN
  | VNull => Return (Finite 0 0)
  | VBool b => Return (Finite (if b then 1 else 0) 0)
  | VNumber z => Return (Finite z 0)
  | VString s => Return (string_to_number s)
  | VArray _ | VObject _ =>
      let* s := to_string v in Return (string_to_number s)
  end.

(** [i < n] for a loop counter [i]: a comparison with [NaN] is false. *)
Definition above (n : number) (i : nat) : bool :=
  match n with
  | NaN => false
  | Infinity negative => negb negative
  | Finite m e =>
      if (0 <=? e)%Z then (Z.of_nat i <? m * 2 ^ e)%Z
      else (Z.of_nat i * 2 ^ (- e) <? m)%Z
  end.

(** [i < v] *)
Definition less_than (i : nat) (v : value) : result bool :=
  let* n := to_number v in Return (above n i).

(** How many of the counters 0, 1, 2, ... are below a number; [None]
    when all of them are. *)
Definition below (n : number) : option Z :=
  match n with
  | NaN => Some 0%Z
  | Infinity negative => if negative then Some 0%Z else None
  | Finite m e =>
      Some (if (m <=? 0)%Z then 0
            else if (0 <=? e)%Z then m * 2 ^ e
            else (m + 2 ^ (- e) - 1) / 2 ^ (- e))%Z
  end.

(** How many times [for (let i = 0; i < v; i++)] enters its body when the
    body does not throw: the counters that pass the test are exactly
    those below [iterations v] (lemma [less_than_iterations]). *)
Definition iterations (v : value) : result (option Z) :=
  let* n := to_number v in Return (below n).

(** An index that a value certainly does not hold lies within this
    distance: the length of an array or of a string, the number of
    properties of an object. *)
Definition reach (time : value) : nat :=
  match time with
  | VArray items => List.length items
  | VString s => text_length s
  | VObject props => List.length props
  | _ => O
  end.

(** The passes that the loop over [time] can at most begin, given how
    many its test admits: the body reads [time[i].startTime] first, which
    throws at an index that [time] does not hold, so the loop never gets
    past [reach time] (lemma [loop_ends_within_reach]). *)
Definition within (time : value) (count : option Z) : nat :=
  match count with
  | Some n => Z.to_nat (Z.min n (Z.of_nat (S (reach time))))
  | None => S (reach time)
  end.

(* ================================================================== *)
(** ** The city table (server.js, lines 14-22) *)
(* ================================================================== *)

Definition CITY_NAME_MAPPING : list (string * string) :=
  [ ("taipei", "臺北市");
    ("newtaipei", "新北市");
    ("taoyuan", "桃園市");
    ("taichung", "臺中市");
    ("tainan", "臺南市");
    ("kaohsiung", "高雄市") ].

(** [Object.keys(CITY_NAME_MAPPING)]: the own keys, in insertion order. *)
Definition Object_keys (table : list (string * string)) : list string :=
  map fst table.

(** [keys.join(sep)] *)
Fixpoint join (sep : string) (keys : list string) : string :=
  match keys with
  | [] => ""
  | [k] => k
  | k :: rest => k ++ sep ++ join sep rest
  end.

(** The table is written as an object literal, so its prototype is
    [Object.prototype] and a lookup [CITY_NAME_MAPPING[key]] that finds no
    own property goes on to the members every object inherits. *)
Definition Object_prototype : list string :=
  [ "constructor"; "__defineGetter__"; "__defineSetter__"; "hasOwnProperty";
    "__lookupGetter__"; "__lookupSetter__"; "isPrototypeOf";
    "propertyIsEnumerable"; "toString"; "valueOf"; "__proto__";
    "toLocaleString" ].

(** What a lookup in the table can yield besides [undefined]. *)
Inductive member : Type :=
| Own (name : string)       (* a location name of the table *)
| Inherited (key : string). (* [Object.prototype[key]]: a built-in function,
                               and for [__proto__] the prototype object *)

Fixpoint assoc (k : string) (table : list (string * string)) : option string :=
  match table with
  | [] => None
  | (k', v) :: rest => if k' =? k then Some v else assoc k rest
  end.

(** [CITY_NAME_MAPPING[key]], [None] for [undefined]. *)
Definition lookup (key : string) : option member :=
  match assoc key CITY_NAME_MAPPING with
  | Some name => Some (Own name)
  | None =>
      if existsb (String.eqb key) Object_prototype then Some (Inherited key)
      else None
  end.

(** [!locationName] is false exactly for these. *)
Definition member_truthy (m : option member) : bool :=
  match m with
  | None => false
  | Some (Own name) => negb (name =? "")
  | Some (Inherited _) => true
  end.

(** [`${locationName}`] inside a template literal. *)
Definition member_text (m : member) : string :=
  match m with
  | Own name => name
  | Inherited key =>
      if key =? "__proto__" then "[object Object]"
      else "function " ++ (if key =? "constructor" then "Object" else key)
           ++ "() { [native code] }"
  end.

(* ================================================================== *)
(** ** Environment, effects and replies *)
(* ================================================================== *)

Definition CWA_API_BASE_URL : string := "https://opendata.cwa.gov.tw/api".

(** The outbound call [axios.get(url, { params: { Authorization, locationName } })]. *)
Record GetRequest : Type := mkGet {
  url : string;
  Authorization : string;
  locationName : member
}.

(** How the promise of [axios.get] settles. *)
Inductive settled : Type :=
| Fulfilled (r : AxiosResponse)
| Rejected (e : Error).

(** What the process reads from outside: the credential
    [process.env.CWA_API_KEY] ([None] when unset), the upstream service,
    and the clock, as the text [new Date().toISOString()] gives. *)
Record env : Type := mkEnv {
  CWA_API_KEY : option string;
  axios_get : GetRequest -> settled;
  Date_toISOString : string
}.

Inductive event : Type :=
| Get (r : GetRequest)
| console_error (line : string) (detail : string).

(** [res.status(code).json(body)]; [res.json(body)] alone has code 200. *)
Record reply : Type := mkReply {
  code : Z;
  json : value
}.

(** An invocation of the [async] handler either sends a reply or, when
    something is thrown outside the [try] block, leaves its promise
    rejected with nothing sent. *)
Inductive outcome : Type :=
| Sent (r : reply)
| Unhandled (e : Error).

Record run : Type := mkRun {
  trace : list event;
  final : outcome
}.

(** [!CWA_API_KEY] is false exactly for a non-empty string. *)
Definition key_truthy (k : option string) : bool :=
  match k with
  | None => false
  | Some s => negb (s =? "")
  end.

(* ================================================================== *)
(** ** Reshaping (server.js, lines 80-126) *)
(* ================================================================== *)

Record forecast : Type := mkForecast {
  startTime : value;
  endTime : value;
  weather : value;
  rain : value;
  minTemp : value;
  maxTemp : value;
  comfort : value;
  windSpeed : value
}.

Definition set_weather (v : value) (f : forecast) : forecast :=
  mkForecast (startTime f) (endTime f) v (rain f)
             (minTemp f) (maxTemp f) (comfort f) (windSpeed f).
Definition set_rain (v : value) (f : forecast) : forecast :=
  mkForecast (startTime f) (endTime f) (weather f) v
             (minTemp f) (maxTemp f) (comfort f) (windSpeed f).
Definition set_minTemp (v : value) (f : forecast) : forecast :=
  mkForecast (startTime f) (endTime f) (weather f) (rain f)
             v (maxTemp f) (comfort f) (windSpeed f).
Definition set_maxTemp (v : value) (f : forecast) : forecast :=
  mkForecast (startTime f) (endTime f) (weather f) (rain f)
             (minTemp f) v (comfort f) (windSpeed f).
Definition set_comfort (v : value) (f : forecast) : forecast :=
  mkForecast (startTime f) (endTime f) (weather f) (rain f)
             (minTemp f) (maxTemp f) v (windSpeed f).
Definition set_windSpeed (v : value) (f : forecast) : forecast :=
  mkForecast (startTime f) (endTime f) (weather f) (rain f)
             (minTemp f) (maxTemp f) (comfort f) v.

(** The object literal of lines 90-99 once the loop body is done with it. *)
Definition forecast_object (f : forecast) : value :=
  VObject [ ("startTime", startTime f); ("endTime", endTime f);
            ("weather", weather f); ("rain", rain f);
            ("minTemp", minTemp f); ("maxTemp", maxTemp f);
            ("comfort", comfort f); ("windSpeed", windSpeed f) ].

(** The [switch] of lines 103-122; [===] matches a string tag only. *)
Definition switch (elementName val : value) (f : forecast) : result forecast :=
  match elementName with
  | VString tag =>
      if tag =? "Wx" then
        let* p := get val "parameterName" in Return (set_weather p f)
      else if tag =? "PoP" then
        let* p := get val "parameterName" in
        let* r := add_string p "%" in Return (set_rain r f)
      else if tag =? "MinT" then
        let* p := get val "parameterName" in Return (set_minTemp p f)
      else if tag =? "MaxT" then
        let* p := get val "parameterName" in Return (set_maxTemp p f)
      else if tag =? "CI" then
        let* p := get val "parameterName" in Return (set_comfort p f)
      else if tag =? "WS" then
        let* p := get val "parameterName" in Return (set_windSpeed p f)
      else Return f
  | _ => Return f
  end.

(** The arrow function given to [forEach] (lines 101-123), for slot [i]. *)
Definition callback (i : nat) (f : forecast) (element : value) : result forecast :=
  let* time := get element "time" in
  let* entry := get_index time i in
  let* val := get entry "parameter" in
  let* elementName := get element "elementName" in
  switch elementName val f.

Fixpoint forEach (i : nat) (elements : list value) (f : forecast) : result forecast :=
  match elements with
  | [] => Return f
  | element :: rest => let* f' := callback i f element in forEach i rest f'
  end.

(** [weatherElements.forEach(...)]: only an array has the method. *)
Definition weatherElements_forEach (weatherElements : value) (i : nat)
    (f : forecast) : result forecast :=
  match weatherElements with
  | VArray elements => forEach i elements f
  | _ => Throw (TypeError "weatherElements.forEach is not a function")
  end.

(** One pass of the loop body (lines 90-125): the slot pushed for [i]. *)
Definition slot (weatherElements : value) (i : nat) : result forecast :=
  let* first := get_index weatherElements 0 in
  let* time := get first "time" in
  let* entry := get_index time i in
  let* start := get entry "startTime" in
  let* first' := get_index weatherElements 0 in
  let* time' := get first' "time" in
  let* entry' := get_index time' i in
  let* finish := get entry' "endTime" in
  weatherElements_forEach weatherElements i
    (mkForecast start finish (VString "") (VString "") (VString "")
                (VString "") (VString "") (VString "")).

(** The [for] loop of lines 89-126 with [todo] passes left, the counter at
    [i] and [forecasts] pushed so far. *)
Fixpoint for_loop (weatherElements : value) (todo i : nat)
    (forecasts : list forecast) : result (list forecast) :=
  match todo with
  | O => Return forecasts
  | S todo' =>
      let* f := slot weatherElements i in
      for_loop weatherElements todo' (S i) (forecasts ++ [f])
  end.

(** *** The replies of the handler *)

(** Lines 43-46; [param] is [req.params.cityId] as received. *)
Definition invalid_city (param : string) : reply :=
  mkReply 400 (VObject
    [ ("error", VString "無效的城市 ID");
      ("message", VString ("不支援查詢此城市: " ++ param ++ "，請使用 "
                           ++ join ", " (Object_keys CITY_NAME_MAPPING))) ]).

(** Lines 51-54. *)
Definition misconfigured : reply :=
  mkReply 500 (VObject
    [ ("error", VString "伺服器設定錯誤");
      ("message", VString "請在 .env 檔案中設定 CWA_API_KEY") ]).

(** Lines 73-76. *)
Definition no_data (name : member) : reply :=
  mkReply 404 (VObject
    [ ("error", VString "查無資料");
      ("message", VString ("無法取得 " ++ member_text name ++ " 天氣資料")) ]).

(** Lines 128-131. *)
Definition success (city updateTime : value) (forecasts : list forecast) : reply :=
  mkReply 200 (VObject
    [ ("success", VBool true);
      ("data", VObject
         [ ("city", city);
           ("updateTime", updateTime);
           ("forecasts", VArray (map forecast_object forecasts)) ]) ]).

(** Lines 137-141; [m] is [error.response.data.message]. *)
Definition upstream_error (r : AxiosResponse) (m : value) : reply :=
  mkReply (status r) (VObject
    [ ("error", VString "CWA API 錯誤");
      ("message", or_else m (VString "無法取得天氣資料"));
      ("details", data r) ]).

(** Lines 143-146. *)
Definition server_error : reply :=
  mkReply 500 (VObject
    [ ("error", VString "伺服器錯誤");
      ("message", VString "無法取得天氣資料，請稍後再試") ]).

(** Lines 70-131: from the fulfilled response to the reply.  The loop is
    run for the passes [within] reach of [time]; with more to come these
    end in a throw, so the loop run for every pass that its test admits
    ends the same (lemma [loop_ends_within_reach]). *)
Definition reshape (name : member) (res : AxiosResponse) : result reply :=
  let* records := get (data res) "records" in
  let* location := get records "location" in
  let* locationData := get_index location 0 in
  if negb (truthy locationData) then Return (no_data name)
  else
    let* city := get locationData "locationName" in
    let* records' := get (data res) "records" in
    let* updateTime := get records' "datasetDescription" in
    let* weatherElements := get locationData "weatherElement" in
    let* first := get_index weatherElements 0 in
    let* time := get first "time" in
    let* timeCount := get time "length" in
    let* count := iterations timeCount in
    let* forecasts := for_loop weatherElements (within time count) 0 [] in
    Return (success city updateTime forecasts).

(* ================================================================== *)
(** ** The handler (server.js, lines 34-148) *)
(* ================================================================== *)

(** The call of lines 58-67 with a credential [key]. *)
Definition request (key : string) (name : member) : GetRequest :=
  mkGet (CWA_API_BASE_URL ++ "/v1/rest/datastore/F-C0032-001") key name.

(** The [try] block, lines 49-132: the credential check, the one outbound
    call, the reshaping. *)
Definition try_block (e : env) (name : member) : list event * result reply :=
  match CWA_API_KEY e with
  | None => ([], Return misconfigured)
  | Some key =>
      if negb (key_truthy (Some key)) then ([], Return misconfigured)
      else
        ( [ Get (request key name) ],
          match axios_get e (request key name) with
          | Fulfilled res => reshape name res
          | Rejected error => Throw error
          end )
  end.

(** The [catch] block, lines 133-147.  Reading [message] of a body that is
    [null] or [undefined] throws from inside the block, where nothing
    catches it. *)
Definition catch_block (name : member) (error : Error) : list event * outcome :=
  ( [ console_error ("取得 " ++ member_text name ++ " 天氣資料失敗:")
                    (message error) ],
    match response error with
    | Some r =>
        match get (data r) "message" with
        | Return m => Sent (upstream_error r m)
        | Throw thrown => Unhandled thrown
        end
    | None => Sent server_error
    end ).

Section Handler.

(** [String.prototype.toLowerCase] of the runtime. *)
Variable toLowerCase : string -> string.

(** [getWeatherByCity(req, res)] with [req.params.cityId = param]. *)
Definition getWeatherByCity (e : env) (param : string) : run :=
  let cityId := toLowerCase param in
  match lookup cityId with
  | None => mkRun [] (Sent (invalid_city param))
  | Some name =>
      if negb (member_truthy (Some name)) then
        mkRun [] (Sent (invalid_city param))
      else
        match try_block e name with
        | (events, Return r) => mkRun events (Sent r)
        | (events, Throw error) =>
            let (logged, out) := catch_block name error in
            mkRun (events ++ logged) out
        end
  end.

End Handler.

(** [toLowerCase] on ASCII text, where it maps [A]-[Z] to [a]-[z] and
    nothing else; used to run the handler on concrete identifiers. *)
Definition ascii_lower (c : ascii) : ascii :=
  let n := nat_of_ascii c in
  if (65 <=? n)%nat && (n <=? 90)%nat then ascii_of_nat (n + 32) else c.

Fixpoint ascii_toLowerCase (s : string) : string :=
  match s with
  | EmptyString => EmptyString
  | String c rest => String (ascii_lower c) (ascii_toLowerCase rest)
  end.

(** [GET /api/health] (lines 163-165) reads the clock. *)
Definition health (e : env) : reply :=
  mkReply 200 (VObject [ ("status", VString "OK");
                         ("timestamp", VString (Date_toISOString e)) ]).

(* ================================================================== *)
(** ** [JSON.stringify], as [res.json] applies it to the body *)
(* ================================================================== *)

Definition quotation_mark : string := String (ascii_of_nat 34) EmptyString.

Definition hex (n : nat) : string :=
  String (nth n [ "0"; "1"; "2"; "3"; "4"; "5"; "6"; "7"; "8"; "9";
                  "a"; "b"; "c"; "d"; "e"; "f" ]%char "0"%char) EmptyString.

(** A character is written as it is, apart from the quotation mark, the
    backslash and the controls. *)
Definition quote_char (c : ascii) : string :=
  let n := nat_of_ascii c in
  if (n =? 8)%nat then "\b"
  else if (n =? 9)%nat then "\t"
  else if (n =? 10)%nat then "\n"
  else if (n =? 12)%nat then "\f"
  else if (n =? 13)%nat then "\r"
  else if (n =? 34)%nat then "\" ++ quotation_mark
  else if (n =? 92)%nat then "\\"
  else if (n <? 32)%nat then "\u00" ++ hex (n / 16) ++ hex (n mod 16)
  else String c EmptyString.

(** Half a surrogate pair standing alone, bytes ED A0-BF xx, is written
    as an escape. *)
Definition lone_surrogate (a b : ascii) : bool :=
  (nat_of_ascii a =? 237)%nat && (160 <=? nat_of_ascii b)%nat.

Definition escape_surrogate (b c : ascii) : string :=
  let n := ((nat_of_ascii b mod 64) * 64 + nat_of_ascii c mod 64)%nat in
  "\ud" ++ hex (n / 256) ++ hex ((n / 16) mod 16) ++ hex (n mod 16).

Fixpoint quote_chars (s : string) : string :=
  match s with
  | EmptyString => EmptyString
  | String a rest =>
      match rest with
      | String b (String c rest') =>
          if lone_surrogate a b then escape_surrogate b c ++ quote_chars rest'
          else quote_char a ++ quote_chars rest
      | _ => quote_char a ++ quote_chars rest
      end
  end.

Definition quote (s : string) : string :=
  quotation_mark ++ quote_chars s ++ quotation_mark.

(** A number is written as [String] writes it, one that is not finite as
    [null]. *)
Definition JSON_number (z : Z) : string :=
  let text := Number_toString z in
  if (text =? "Infinity") || (text =? "-Infinity") then "null" else text.

(** [None] is [undefined]: a property with such a value is left out of
    its object, an array element with such a value is written [null]. *)
Fixpoint JSON_stringify (v : value) : option string :=
  match v with
  | VUndefined => None
  | VNull => Some "null"
  | VBool b => Some (if b then "true" else "false")
  | VNumber z => Some (JSON_number z)
  | VString s => Some (quote s)
  | VArray items =>
      Some ("[" ++ join ","
              ((fix elements (l : list value) : list string :=
                  match l with
                  | [] => []
                  | x :: rest =>
                      match JSON_stringify x with
                      | Some text => text
                      | None => "null"
                      end :: elements rest
                  end) items) ++ "]")
  | VObject props =>
      Some ("{" ++ join ","
              ((fix members (l : list (string * value)) : list string :=
                  match l with
                  | [] => []
                  | (k, x) :: rest =>
                      match JSON_stringify x with
                      | Some text => (quote k ++ ":" ++ text) :: members rest
                      | None => members rest
                      end
                  end) props) ++ "}")
  end.

(** The bytes of the response body, when one was sent. *)
Definition body_text (o : outcome) : option string :=
  match o with
  | Sent r => JSON_stringify (json r)
  | Unhandled _ => None
  end.

(* ================================================================== *)
(** ** Vocabulary of the properties *)
(* ================================================================== *)

(** [part] occurs in [whole]. *)
Definition contains (part whole : string) : Prop :=
  exists before after, whole = before ++ part ++ after.

(** The outbound requests of a trace, in order. *)
Fixpoint gets (events : list event) : list GetRequest :=
  match events with
  | [] => []
  | Get r :: rest => r :: gets rest
  | console_error _ _ :: rest => gets rest
  end.

Definition nullish (v : value) : bool :=
  match v with
  | VUndefined | VNull => true
  | _ => false
  end.

Definition is_object (v : value) : bool :=
  match v with VObject _ => true | _ => false end.

Definition is_string (v : value) : bool :=
  match v with VString _ => true | _ => false end.

(** [v?.name]: the property, [undefined] where reading it would throw. *)
Definition get_opt (v : value) (name : string) : value :=
  match get v name with
  | Return x => x
  | Throw _ => VUndefined
  end.

(** *** The documented shape of the upstream payload

    [{records: {datasetDescription, location: [{locationName,
    weatherElement: [{elementName, time: [{startTime, endTime,
    parameter: {parameterName}}]}]}]}}], every [time] array of the same
    length [N], every [parameterName] a string. *)

Definition first_location (d : value) : value :=
  match get_opt (get_opt d "records") "location" with
  | VArray (loc :: _) => loc
  | _ => VUndefined
  end.

Definition elements_of (d : value) : list value :=
  match get_opt (first_location d) "weatherElement" with
  | VArray elements => elements
  | _ => []
  end.

Definition entries (element : value) : list value :=
  match get_opt element "time" with
  | VArray ts => ts
  | _ => []
  end.

Definition entry (element : value) (i : nat) : value :=
  nth i (entries element) VUndefined.

Definition parameterName_of (element : value) (i : nat) : value :=
  get_opt (get_opt (entry element i) "parameter") "parameterName".

Definition time_entry_ok (t : value) : bool :=
  is_object t && is_object (get_opt t "parameter")
  && is_string (get_opt (get_opt t "parameter") "parameterName").

Definition element_ok (N : nat) (element : value) : bool :=
  is_object element
  && match get_opt element "time" with
     | VArray ts => (List.length ts =? N)%nat && forallb time_entry_ok ts
     | _ => false
     end.

Definition well_formed (N : nat) (d : value) : bool :=
  is_object (first_location d)
  && match elements_of d with
     | [] => false
     | _ :: _ => forallb (element_ok N) (elements_of d)
     end.

(** *** What the specification says the slots are *)

Definition tagged (tag : string) (element : value) : bool :=
  match get_opt element "elementName" with
  | VString t => t =? tag
  | _ => false
  end.

(** The element that decides a field: the last one carrying the tag. *)
Fixpoint last_tagged (tag : string) (elements : list value) : option value :=
  match elements with
  | [] => None
  | element :: rest =>
      match last_tagged tag rest with
      | Some found => Some found
      | None => if tagged tag element then Some element else None
      end
  end.

Definition known_tags : list string := [ "Wx"; "PoP"; "MinT"; "MaxT"; "CI"; "WS" ].

Definition known (element : value) : bool :=
  existsb (fun tag => tagged tag element) known_tags.

(** The value of a field after the elements were visited in order, when it
    held [otherwise] before: the [parameterName], at index [i], of the last
    element that carries the field's tag. *)
Definition decided (tag : string) (elements : list value) (i : nat)
    (otherwise : value) : value :=
  match last_tagged tag elements with
  | Some element => parameterName_of element i
  | None => otherwise
  end.

Definition with_percent (v : value) : value :=
  match v with
  | VString s => VString (s ++ "%")
  | other => other
  end.

Definition decided_rain (elements : list value) (i : nat) (otherwise : value) : value :=
  match last_tagged "PoP" elements with
  | Some element => with_percent (parameterName_of element i)
  | None => otherwise
  end.

(** Follows the specification's words: the field selected by a tag holds
    that element's [parameterName] at index [i], and is empty when the
    upstream omits the element. *)
Definition expected_field (tag : string) (elements : list value) (i : nat) : value :=
  decided tag elements i (VString "").

(** Follows the specification's words: [PoP] goes to [rain] with a literal
    percent sign appended. *)
Definition expected_rain (elements : list value) (i : nat) : value :=
  decided_rain elements i (VString "").

(** Follows the specification's words: one slot per index of the first
    element's [time] array, times copied from that index. *)
Definition expected_slot (elements : list value) (i : nat) : forecast :=
  mkForecast (get_opt (entry (hd VUndefined elements) i) "startTime")
             (get_opt (entry (hd VUndefined elements) i) "endTime")
             (expected_field "Wx" elements i)
             (expected_rain elements i)
             (expected_field "MinT" elements i)
             (expected_field "MaxT" elements i)
             (expected_field "CI" elements i)
             (expected_field "WS" elements i).

Definition expected_forecasts (elements : list value) (N : nat) : list forecast :=
  map (expected_slot elements) (seq 0 N).

(** *** Sample data *)

Definition sample_entry (start finish text : string) : value :=
  VObject [ ("startTime", VString start); ("endTime", VString finish);
            ("parameter", VObject [ ("parameterName", VString text) ]) ].

Definition sample_element (tag first second : string) : value :=
  VObject [ ("elementName", VString tag);
            ("time", VArray [ sample_entry "2024-01-01 06:00:00" "2024-01-01 18:00:00" first;
                              sample_entry "2024-01-01 18:00:00" "2024-01-02 06:00:00" second ]) ].

Definition sample_elements : list value :=
  [ sample_element "Wx" "晴時多雲" "陰短暫雨";
    sample_element "PoP" "20" "70";
    sample_element "MinT" "15" "14";
    sample_element "CI" "舒適" "稍有寒意";
    sample_element "MaxT" "22" "17" ].

Definition sample_payload : value :=
  VObject [ ("success", VString "true");
            ("records", VObject
               [ ("datasetDescription", VString "三十六小時天氣預報");
                 ("location", VArray
                    [ VObject [ ("locationName", VString "臺北市");
                                ("weatherElement", VArray sample_elements) ] ]) ]) ].

(** An environment whose upstream answers every request with [s]. *)
Definition env_with (key : option string) (s : settled) : env :=
  mkEnv key (fun _ => s) "2024-01-01T00:00:00.000Z".

Definition sample_env : env :=
  env_with (Some "KEY") (Fulfilled (mkResponse 200 sample_payload)).

(** The sample elements followed by one whose tag the switch does not know. *)
Definition sample_elements_with_other : list value :=
  (sample_elements ++ [ sample_element "UVI" "3" "1" ])%list.

(** Payloads at the edges of the documented shape. *)
Definition payload_without_location : value :=
  VObject [ ("records", VObject [ ("datasetDescription", VString "三十六小時天氣預報") ]) ].

Definition payload_empty_location : value :=
  VObject [ ("records", VObject [ ("datasetDescription", VString "三十六小時天氣預報");
                                  ("location", VArray []) ]) ].

(** A rejection that carries the upstream's answer. *)
Definition rejection (code : Z) (body : value) : settled :=
  Rejected (mkError "Request failed" (Some (mkResponse code body))).

(* ================================================================== *)
(** ** Further vocabulary: reads that cannot throw, log lines *)
(* ================================================================== *)

(** [v?.[i]]: the element, [undefined] where reading it would throw. *)
Definition index_opt (v : value) (i : nat) : value :=
  match get_index v i with
  | Return x => x
  | Throw _ => VUndefined
  end.

(** [response.data.records?.location], the value line 70 indexes. *)
Definition location_of (d : value) : value :=
  get_opt (get_opt d "records") "location".

(** [locationData] of line 70, whatever [location] is. *)
Definition located (d : value) : value :=
  index_opt (location_of d) 0.

(** [weatherElements[0].time] of line 87. *)
Definition first_time (d : value) : value :=
  get_opt (index_opt (get_opt (located d) "weatherElement") 0) "time".

(** The log lines of a trace, in order. *)
Fixpoint logs (events : list event) : list (string * string) :=
  match events with
  | [] => []
  | Get _ :: rest => logs rest
  | console_error line detail :: rest => (line, detail) :: logs rest
  end.



(** The texts of the [error] field in the replies of the handler. *)
Definition error_texts : list string :=
  [ "無效的城市 ID"; "伺服器設定錯誤"; "查無資料"; "CWA API 錯誤"; "伺服器錯誤" ].


Definition ragged_shorter : list value :=
  [ sample_element "Wx" "晴時多雲" "陰短暫雨";
    VObject [ ("elementName", VString "MinT");
              ("time", VArray
                 [ sample_entry "2024-01-01 06:00:00" "2024-01-01 18:00:00" "15" ]) ] ].

(** A payload with one location, named [city], carrying [elements]. *)
Definition payload_with (city : string) (elements : list value) : value :=
  VObject [ ("records", VObject
               [ ("datasetDescription", VString "三十六小時天氣預報");
                 ("location", VArray
                    [ VObject [ ("locationName", VString city);
                                ("weatherElement", VArray elements) ] ]) ]) ].

(** Elements whose tag the switch does not know: one without [time], one
    with a single entry of its own. *)
Definition unknown_without_time : value :=
  VObject [ ("elementName", VString "UVI") ].

Definition unknown_with_one_entry : value :=
  VObject [ ("elementName", VString "UVI");
            ("time", VArray
               [ sample_entry "2030-01-01 00:00:00" "2030-01-01 12:00:00" "3" ]) ].

(** A [time] that is no array: an object with a text as its [length] and
    two entries under their indices. *)
Definition time_object (count : string) : value :=
  VObject [ ("length", VString count);
            ("0", sample_entry "2024-01-01 06:00:00" "2024-01-01 18:00:00" "20");
            ("1", sample_entry "2024-01-01 18:00:00" "2024-01-02 06:00:00" "70") ].

Definition payload_time_object (count : string) : value :=
  payload_with "臺北市"
    [ VObject [ ("elementName", VString "PoP"); ("time", time_object count) ] ].

(** A payload whose one [PoP] entry carries a number. *)
Definition payload_number (z : Z) : value :=
  payload_with "臺北市"
    [ VObject [ ("elementName", VString "PoP");
                ("time", VArray
                   [ VObject [ ("startTime", VString "2024-01-01 06:00:00");
                               ("endTime", VString "2024-01-01 18:00:00");
                               ("parameter", VObject [ ("parameterName", VNumber z) ]) ] ]) ] ].

(** A payload whose [location] array starts with [null]. *)
Definition payload_null_location : value :=
  VObject [ ("records", VObject
               [ ("datasetDescription", VString "三十六小時天氣預報");
                 ("location", VArray
                    [ VNull;
                      VObject [ ("locationName", VString "臺北市");
                                ("weatherElement", VArray sample_elements) ] ]) ]) ].

(** [element.time?.[i]?.parameter?.parameterName], whatever [time] is. *)
Definition parameterName_at (element : value) (i : nat) : value :=
  get_opt (get_opt (index_opt (get_opt element "time") i) "parameter") "parameterName".

(* ================================================================== *)
(** ** Basic facts about the runtime operations *)
(* ================================================================== *)

Lemma get_not_nullish v name :
  nullish v = false -> get v name = Return (get_opt v name).
Proof.
  unfold get_opt; destruct v; simpl; intros H; try discriminate; reflexivity.
Qed.

Lemma get_nullish v name :
  nullish v = true -> get v name = Throw (cannot_read v name).
Proof. destruct v; simpl; intros H; try discriminate; reflexivity. Qed.

Lemma truthy_not_nullish v : truthy v = true -> nullish v = false.
Proof. destruct v; simpl; intros H; try discriminate; reflexivity. Qed.

Lemma get_opt_defined v name x :
  get_opt v name = x -> x <> VUndefined -> get v name = Return x.
Proof.
  unfold get_opt; destruct (get v name); intros H Hx; subst; [reflexivity | ].
  exfalso; apply Hx; reflexivity.
Qed.

Lemma above_below n i :
  above n i = match below n with
              | Some k => (Z.of_nat i <? k)%Z
              | None => true
              end.
Proof.
  destruct n as [ | [ | ] | m e]; cbn [above below negb]; try reflexivity;
    try (symmetry; apply Z.ltb_ge; lia).
  - destruct (Z.leb_spec 0 e) as [He | He].
    + assert (0 < 2 ^ e)%Z by (apply Z.pow_pos_nonneg; lia).
      destruct (Z.leb_spec m 0); [ | reflexivity].
      destruct (Z.ltb_spec (Z.of_nat i) (m * 2 ^ e)),
               (Z.ltb_spec (Z.of_nat i) 0); try reflexivity; nia.
    + assert (Hd : (0 < 2 ^ (- e))%Z) by (apply Z.pow_pos_nonneg; lia).
      set (d := (2 ^ (- e))%Z) in *.
      destruct (Z.leb_spec m 0).
      * destruct (Z.ltb_spec (Z.of_nat i * d) m),
                 (Z.ltb_spec (Z.of_nat i) 0); try reflexivity; nia.
      * destruct (Z.ltb_spec (Z.of_nat i * d) m) as [Hlt | Hge];
          symmetry; [apply Z.ltb_lt | apply Z.ltb_ge].
        -- apply Z.lt_le_trans with (Z.of_nat i + 1)%Z; [lia | ].
           apply Z.div_le_lower_bound; [assumption | nia].
        -- apply Z.lt_succ_r, Z.div_lt_upper_bound; [assumption | nia].
Qed.

Lemma less_than_iterations v count :
  iterations v = Return count ->
  forall i, less_than i v = Return (match count with
                                    | Some k => (Z.of_nat i <? k)%Z
                                    | None => true
                                    end).
Proof.
  unfold iterations, less_than; destruct (to_number v) as [n | err];
    simpl; intros H i; inversion H; subst; clear H; f_equal.
  apply above_below.
Qed.

Lemma iterations_length n :
  iterations (VNumber (Z.of_nat n)) = Return (Some (Z.of_nat n)).
Proof.
  unfold iterations; cbn [to_number bind below]; do 2 f_equal.
  destruct (Z.leb_spec (Z.of_nat n) 0); cbn; lia.
Qed.

Lemma within_length items :
  within (VArray items) (Some (Z.of_nat (List.length items))) = List.length items.
Proof. unfold within, reach; lia. Qed.

Lemma contains_middle before part after :
  contains part (before ++ part ++ after).
Proof. exists before, after; reflexivity. Qed.

(* ================================================================== *)
(** ** The city table *)
(* ================================================================== *)

Lemma lookup_own key name :
  assoc key CITY_NAME_MAPPING = Some name -> lookup key = Some (Own name).
Proof. unfold lookup; intros ->; reflexivity. Qed.

Lemma table_names_truthy key name :
  assoc key CITY_NAME_MAPPING = Some name -> member_truthy (Some (Own name)) = true.
Proof.
  unfold CITY_NAME_MAPPING; simpl.
  repeat match goal with
         | |- context [ if ?b then _ else _ ] => destruct b
         end; intros H; inversion H; reflexivity.
Qed.

Lemma lookup_truthy key name :
  lookup key = Some name -> member_truthy (Some name) = true.
Proof.
  unfold lookup; destruct (assoc key CITY_NAME_MAPPING) as [own | ] eqn:E.
  - intros H; inversion H; subst; apply (table_names_truthy key); exact E.
  - destruct (existsb (String.eqb key) Object_prototype);
      intros H; inversion H; reflexivity.
Qed.

Lemma Object_keys_NoDup : NoDup (Object_keys CITY_NAME_MAPPING).
Proof.
  unfold Object_keys, CITY_NAME_MAPPING; simpl.
  repeat constructor; simpl; intuition discriminate.
Qed.

Lemma Object_keys_assoc key :
  In key (Object_keys CITY_NAME_MAPPING) <-> exists name, assoc key CITY_NAME_MAPPING = Some name.
Proof.
  split.
  - unfold Object_keys, CITY_NAME_MAPPING; simpl.
    intros H; repeat (destruct H as [H | H]; [subst key; eexists; reflexivity | ]).
    contradiction.
  - intros [name H]; unfold CITY_NAME_MAPPING, assoc in H.
    unfold Object_keys, CITY_NAME_MAPPING, map, fst.
    repeat match type of H with
           | context [ if ?k =? key then _ else _ ] =>
               destruct (String.eqb_spec k key); [subst key; simpl; tauto | ]
           end.
    discriminate.
Qed.

(* ================================================================== *)
(** ** The handler, branch by branch *)
(* ================================================================== *)

Section Branches.

Variable toLowerCase : string -> string.
Variable e : env.
Variable param : string.

Lemma handler_rejects_unknown :
  lookup (toLowerCase param) = None ->
  getWeatherByCity toLowerCase e param = mkRun [] (Sent (invalid_city param)).
Proof. unfold getWeatherByCity; intros ->; reflexivity. Qed.

Lemma handler_without_key name :
  lookup (toLowerCase param) = Some name ->
  member_truthy (Some name) = true ->
  key_truthy (CWA_API_KEY e) = false ->
  getWeatherByCity toLowerCase e param = mkRun [] (Sent misconfigured).
Proof.
  unfold getWeatherByCity, try_block; intros -> -> Hkey.
  destruct (CWA_API_KEY e) as [key | ]; [ | reflexivity].
  rewrite Hkey; reflexivity.
Qed.

Lemma handler_fulfilled name key res :
  lookup (toLowerCase param) = Some name ->
  member_truthy (Some name) = true ->
  CWA_API_KEY e = Some key -> key <> "" ->
  axios_get e (request key name) = Fulfilled res ->
  getWeatherByCity toLowerCase e param =
    match reshape name res with
    | Return r => mkRun [ Get (request key name) ] (Sent r)
    | Throw error =>
        mkRun (Get (request key name) :: fst (catch_block name error))
              (snd (catch_block name error))
    end.
Proof.
  unfold getWeatherByCity, try_block; intros -> -> -> Hkey ->; simpl.
  destruct (String.eqb_spec key ""); [contradiction | simpl].
  destruct (reshape name res); reflexivity.
Qed.

Lemma handler_rejected name key error :
  lookup (toLowerCase param) = Some name ->
  member_truthy (Some name) = true ->
  CWA_API_KEY e = Some key -> key <> "" ->
  axios_get e (request key name) = Rejected error ->
  getWeatherByCity toLowerCase e param =
    mkRun (Get (request key name) :: fst (catch_block name error))
          (snd (catch_block name error)).
Proof.
  unfold getWeatherByCity, try_block; intros -> -> -> Hkey ->; simpl.
  destruct (String.eqb_spec key ""); [contradiction | reflexivity].
Qed.

End Branches.

(* ================================================================== *)
(** ** Reshaping a payload of the documented shape *)
(* ================================================================== *)

Lemma forecast_eta f :
  mkForecast (startTime f) (endTime f) (weather f) (rain f)
             (minTemp f) (maxTemp f) (comfort f) (windSpeed f) = f.
Proof. destruct f; reflexivity. Qed.

Lemma tagged_string element t tag :
  get_opt element "elementName" = VString t -> tagged tag element = (t =? tag).
Proof. unfold tagged; intros ->; reflexivity. Qed.

Lemma tagged_other element tag :
  is_string (get_opt element "elementName") = false -> tagged tag element = false.
Proof. unfold tagged; destruct (get_opt element "elementName"); simpl; congruence. Qed.

Lemma entry_ok N element i :
  element_ok N element = true -> (i < N)%nat ->
  time_entry_ok (entry element i) = true.
Proof.
  unfold element_ok, entry, entries; intros H Hi.
  apply andb_prop in H as [_ H].
  destruct (get_opt element "time"); try discriminate.
  apply andb_prop in H as [Hlen Hall].
  apply Nat.eqb_eq in Hlen; subst N.
  rewrite forallb_forall in Hall; apply Hall, nth_In; exact Hi.
Qed.

Lemma entry_parameter N element i :
  element_ok N element = true -> (i < N)%nat ->
  exists s, parameterName_of element i = VString s
            /\ get (get_opt (entry element i) "parameter") "parameterName"
               = Return (VString s).
Proof.
  intros H Hi; pose proof (entry_ok _ _ _ H Hi) as Hok.
  unfold time_entry_ok in Hok.
  apply andb_prop in Hok as [Hok Hs]; apply andb_prop in Hok as [_ Hp].
  unfold parameterName_of.
  destruct (get_opt (get_opt (entry element i) "parameter") "parameterName")
    as [ | | | | s | | ] eqn:E; try discriminate.
  exists s; split; [reflexivity | ].
  apply get_opt_defined; [exact E | discriminate].
Qed.

(** On an element of the documented shape the callback reads without
    throwing and comes down to its [switch]. *)
Lemma callback_element_ok N element i f :
  element_ok N element = true -> (i < N)%nat ->
  callback i f element =
    switch (get_opt element "elementName")
           (get_opt (entry element i) "parameter") f.
Proof.
  intros H Hi; pose proof (entry_ok _ _ _ H Hi) as Hok.
  unfold callback, entry, entries in *.
  unfold element_ok in H; apply andb_prop in H as [Hobj H].
  destruct element; try discriminate.
  rewrite (get_not_nullish (VObject props) "time") by reflexivity.
  destruct (get_opt (VObject props) "time") as [ | | | | | ts | ]; try discriminate.
  cbn [bind get_index].
  unfold time_entry_ok in Hok.
  apply andb_prop in Hok as [Hok _]; apply andb_prop in Hok as [Ht _].
  destruct (nth i ts VUndefined) as [ | | | | | | tprops ]; try discriminate.
  rewrite (get_not_nullish (VObject tprops) "parameter") by reflexivity.
  cbn [bind].
  rewrite (get_not_nullish (VObject props) "elementName") by reflexivity.
  reflexivity.
Qed.

Lemma decided_skip tag element rest i old :
  tagged tag element = false ->
  decided tag (element :: rest) i old = decided tag rest i old.
Proof.
  unfold decided; simpl; intros ->; destruct (last_tagged tag rest); reflexivity.
Qed.

Lemma decided_take tag element rest i old :
  tagged tag element = true ->
  decided tag (element :: rest) i old
  = decided tag rest i (parameterName_of element i).
Proof.
  unfold decided; simpl; intros ->; destruct (last_tagged tag rest); reflexivity.
Qed.

Lemma decided_rain_skip element rest i old :
  tagged "PoP" element = false ->
  decided_rain (element :: rest) i old = decided_rain rest i old.
Proof.
  unfold decided_rain; simpl last_tagged; intros ->.
  destruct (last_tagged "PoP" rest); reflexivity.
Qed.

Lemma decided_rain_take element rest i old :
  tagged "PoP" element = true ->
  decided_rain (element :: rest) i old
  = decided_rain rest i (with_percent (parameterName_of element i)).
Proof.
  unfold decided_rain; simpl last_tagged; intros ->.
  destruct (last_tagged "PoP" rest); reflexivity.
Qed.

(** Closes one field of the record after an element was visited: the
    element either carries the field's tag or is skipped by it. *)
Ltac field_step Etag :=
  first
    [ reflexivity
    | rewrite decided_take by (rewrite (tagged_string _ _ _ Etag); reflexivity);
      reflexivity
    | rewrite decided_rain_take by (rewrite (tagged_string _ _ _ Etag); reflexivity);
      reflexivity
    | rewrite decided_skip by (rewrite (tagged_string _ _ _ Etag); reflexivity);
      reflexivity
    | rewrite decided_rain_skip by (rewrite (tagged_string _ _ _ Etag); reflexivity);
      reflexivity ].

(** [forEach] over elements of the documented shape never throws, and
    leaves in every field what the last element with the field's tag
    holds at index [i]. *)
Lemma forEach_decided N i elements :
  (i < N)%nat ->
  forallb (element_ok N) elements = true ->
  forall f,
    forEach i elements f =
      Return (mkForecast (startTime f) (endTime f)
                (decided "Wx" elements i (weather f))
                (decided_rain elements i (rain f))
                (decided "MinT" elements i (minTemp f))
                (decided "MaxT" elements i (maxTemp f))
                (decided "CI" elements i (comfort f))
                (decided "WS" elements i (windSpeed f))).
Proof.
  intros Hi; induction elements as [ | element rest IH]; intros Hall f.
  - simpl; unfold decided, decided_rain; simpl; rewrite forecast_eta; reflexivity.
  - simpl in Hall; apply andb_prop in Hall as [Hel Hrest].
    cbn [forEach]; rewrite (callback_element_ok N) by assumption.
    destruct (entry_parameter N element i Hel Hi) as [s [Hs Hget]].
    destruct (get_opt element "elementName") as [ | | | | t | | ] eqn:Etag;
      try (cbn [switch bind]; rewrite (IH Hrest); do 2 f_equal; symmetry;
           first [ apply decided_skip | apply decided_rain_skip ];
           apply tagged_other; rewrite Etag; reflexivity).
    unfold switch.
    destruct (String.eqb_spec t "Wx") as [-> | nWx].
    { rewrite Hget; cbn [bind]; rewrite (IH Hrest); cbn; rewrite <- Hs.
      f_equal; f_equal; symmetry; field_step Etag. }
    destruct (String.eqb_spec t "PoP") as [-> | nPoP].
    { rewrite Hget; cbn [bind add_string to_string]; rewrite (IH Hrest); cbn.
      replace (VString (s ++ "%")) with (with_percent (parameterName_of element i))
        by (rewrite Hs; reflexivity).
      f_equal; f_equal; symmetry; field_step Etag. }
    destruct (String.eqb_spec t "MinT") as [-> | nMinT].
    { rewrite Hget; cbn [bind]; rewrite (IH Hrest); cbn; rewrite <- Hs.
      f_equal; f_equal; symmetry; field_step Etag. }
    destruct (String.eqb_spec t "MaxT") as [-> | nMaxT].
    { rewrite Hget; cbn [bind]; rewrite (IH Hrest); cbn; rewrite <- Hs.
      f_equal; f_equal; symmetry; field_step Etag. }
    destruct (String.eqb_spec t "CI") as [-> | nCI].
    { rewrite Hget; cbn [bind]; rewrite (IH Hrest); cbn; rewrite <- Hs.
      f_equal; f_equal; symmetry; field_step Etag. }
    destruct (String.eqb_spec t "WS") as [-> | nWS].
    { rewrite Hget; cbn [bind]; rewrite (IH Hrest); cbn; rewrite <- Hs.
      f_equal; f_equal; symmetry; field_step Etag. }
    cbn [bind]; rewrite (IH Hrest).
    assert (Hno : forall tag, In tag known_tags -> tagged tag element = false).
    { intros tag Htag; rewrite (tagged_string _ _ _ Etag).
      apply String.eqb_neq; simpl in Htag; intuition congruence. }
    f_equal; f_equal; symmetry;
      first [ apply decided_skip | apply decided_rain_skip ];
      apply Hno; simpl; tauto.
Qed.

Lemma get_opt_chain d a b x :
  get_opt (get_opt d a) b = x -> x <> VUndefined ->
  get d a = Return (get_opt d a) /\ get (get_opt d a) b = Return x.
Proof.
  intros H Hx; split; [ | apply get_opt_defined; assumption].
  apply get_not_nullish.
  destruct d; try reflexivity; exfalso; apply Hx; rewrite <- H; reflexivity.
Qed.

Lemma element_ok_time N element :
  element_ok N element = true ->
  exists ts, get element "time" = Return (VArray ts)
             /\ entries element = ts /\ List.length ts = N.
Proof.
  unfold element_ok, entries; intros H; apply andb_prop in H as [Hobj H].
  destruct (get_opt element "time") as [ | | | | | ts | ] eqn:E; try discriminate.
  apply andb_prop in H as [Hlen _]; apply Nat.eqb_eq in Hlen.
  exists ts; repeat split; [ | assumption].
  apply get_opt_defined; [assumption | discriminate].
Qed.

Lemma slot_expected N elements i :
  (i < N)%nat -> elements <> [] ->
  forallb (element_ok N) elements = true ->
  slot (VArray elements) i = Return (expected_slot elements i).
Proof.
  intros Hi Hne Hall.
  destruct elements as [ | first rest]; [contradiction | ].
  pose proof Hall as Hall'; simpl in Hall'; apply andb_prop in Hall' as [Hfirst _].
  destruct (element_ok_time _ _ Hfirst) as [ts [Htime [Hts Hlen]]].
  pose proof (entry_ok _ _ _ Hfirst Hi) as Hentry.
  unfold time_entry_ok in Hentry.
  apply andb_prop in Hentry as [Hentry _]; apply andb_prop in Hentry as [Hentry _].
  unfold slot, expected_slot, expected_field, expected_rain.
  cbn [get_index nth bind hd]; rewrite Htime; cbn [get_index bind].
  unfold entry in *; rewrite Hts in *.
  rewrite (get_not_nullish (nth i ts VUndefined) "startTime")
    by (destruct (nth i ts VUndefined); try discriminate; reflexivity).
  rewrite (get_not_nullish (nth i ts VUndefined) "endTime")
    by (destruct (nth i ts VUndefined); try discriminate; reflexivity).
  cbn [bind weatherElements_forEach].
  rewrite (forEach_decided N) by assumption.
  reflexivity.
Qed.

Lemma for_loop_slots weatherElements g :
  forall todo start forecasts,
    (forall i, (start <= i < start + todo)%nat -> slot weatherElements i = Return (g i)) ->
    for_loop weatherElements todo start forecasts
    = Return (forecasts ++ map g (seq start todo))%list.
Proof.
  induction todo as [ | todo IH]; intros start forecasts H; simpl.
  - rewrite app_nil_r; reflexivity.
  - rewrite H by lia; cbn [bind].
    rewrite IH by (intros i Hi; apply H; lia).
    rewrite <- app_assoc; reflexivity.
Qed.

(** A payload of the documented shape is reshaped, without a throw, into
    the slots the specification describes. *)
Lemma reshape_well_formed N d name st :
  well_formed N d = true ->
  reshape name (mkResponse st d)
  = Return (success (get_opt (first_location d) "locationName")
                    (get_opt (get_opt d "records") "datasetDescription")
                    (expected_forecasts (elements_of d) N)).
Proof.
  unfold well_formed; intros H; apply andb_prop in H as [Hloc Hels].
  unfold elements_of in *.
  unfold first_location in *.
  destruct (get_opt (get_opt d "records") "location")
    as [ | | | | | [ | loc others] | ] eqn:Elocation; try discriminate.
  destruct (get_opt_chain d "records" "location" _ Elocation) as [Hrecords Hlocation];
    [discriminate | ].
  destruct loc as [ | | | | | | lprops]; try discriminate.
  destruct (get_opt (VObject lprops) "weatherElement")
    as [ | | | | | [ | first rest] | ] eqn:Eelements; try discriminate.
  pose proof Hels as Hfirst; simpl in Hfirst; apply andb_prop in Hfirst as [Hfirst _].
  destruct (element_ok_time _ _ Hfirst) as [ts [Htime [Hts Hlen]]].
  unfold reshape; cbn [data].
  rewrite Hrecords; cbn [bind]; rewrite Hlocation; cbn [bind get_index nth truthy negb].
  rewrite (get_not_nullish (VObject lprops) "locationName") by reflexivity.
  cbn [bind].
  rewrite (get_not_nullish (get_opt d "records") "datasetDescription")
    by (destruct (get_opt d "records"); try discriminate; reflexivity).
  cbn [bind].
  rewrite (get_opt_defined _ _ _ Eelements) by discriminate.
  cbn [bind get_index nth]; rewrite Htime; cbn [bind get].
  change ("length" =? "length") with true; cbv iota.
  rewrite iterations_length; cbn [bind]; rewrite within_length, Hlen.
  rewrite (for_loop_slots _ (expected_slot (first :: rest))).
  - reflexivity.
  - intros i Hi; apply (slot_expected N); [lia | discriminate | assumption].
Qed.

Lemma last_tagged_In tag elements element :
  last_tagged tag elements = Some element -> In element elements.
Proof.
  induction elements as [ | x rest IH]; simpl; [discriminate | ].
  destruct (last_tagged tag rest) as [found | ].
  - intros H; inversion H; subst; right; apply IH; reflexivity.
  - destruct (tagged tag x); intros H; inversion H; subst; left; reflexivity.
Qed.

Lemma expected_forecasts_length elements N :
  List.length (expected_forecasts elements N) = N.
Proof. unfold expected_forecasts; rewrite length_map, length_seq; reflexivity. Qed.

Lemma expected_forecasts_nth elements N i :
  (i < N)%nat ->
  nth_error (expected_forecasts elements N) i = Some (expected_slot elements i).
Proof.
  intros Hi; unfold expected_forecasts.
  apply map_nth_error.
  rewrite nth_error_nth' with (d := O) by (rewrite length_seq; exact Hi).
  rewrite seq_nth by exact Hi; reflexivity.
Qed.

(* ================================================================== *)
(** ** The switch and the fields it leaves alone *)
(* ================================================================== *)

Lemma switch_unknown tagv val f :
  (forall tag, In tag known_tags -> tagv <> VString tag) ->
  switch tagv val f = Return f.
Proof.
  intros H; destruct tagv as [ | | | | t | | ]; try reflexivity.
  unfold switch.
  repeat match goal with
         | |- context [ if t =? ?tag then _ else _ ] =>
             destruct (String.eqb_spec t tag);
             [ exfalso; apply (H tag); [simpl; tauto | congruence] | ]
         end.
  reflexivity.
Qed.

Lemma known_false element tag :
  known element = false -> In tag known_tags -> tagged tag element = false.
Proof.
  unfold known; intros H Hin.
  destruct (tagged tag element) eqn:E; [ | reflexivity].
  assert (existsb (fun t => tagged t element) known_tags = true)
    by (apply existsb_exists; exists tag; split; assumption).
  congruence.
Qed.

(** What one visit can change: only the field of the visited element's tag. *)
Lemma callback_fields i f element f' :
  callback i f element = Return f' ->
  startTime f' = startTime f /\ endTime f' = endTime f
  /\ (tagged "Wx" element = false -> weather f' = weather f)
  /\ (tagged "PoP" element = false -> rain f' = rain f)
  /\ (tagged "MinT" element = false -> minTemp f' = minTemp f)
  /\ (tagged "MaxT" element = false -> maxTemp f' = maxTemp f)
  /\ (tagged "CI" element = false -> comfort f' = comfort f)
  /\ (tagged "WS" element = false -> windSpeed f' = windSpeed f).
Proof.
  unfold callback.
  destruct (get element "time") as [time | ]; [cbn [bind] | discriminate].
  destruct (get_index time i) as [entry | ]; [cbn [bind] | discriminate].
  destruct (get entry "parameter") as [val | ]; [cbn [bind] | discriminate].
  destruct (get element "elementName") as [tagv | ] eqn:Etag; [cbn [bind] | discriminate].
  assert (Hopt : get_opt element "elementName" = tagv)
    by (unfold get_opt; rewrite Etag; reflexivity).
  unfold tagged; rewrite Hopt; clear Hopt Etag.
  destruct tagv as [ | | | | t | | ];
    try (intros H; inversion H; subst; repeat split; reflexivity).
  unfold switch.
  repeat match goal with
         | |- context [ if t =? ?tag then _ else _ ] =>
             destruct (String.eqb_spec t tag) as [-> | ];
             [ destruct (get val "parameterName") as [p | ];
               [ cbn [bind] | discriminate ];
               try (destruct (add_string p "%"); [cbn [bind] | discriminate]);
               intros H; inversion H; subst; cbn;
               repeat split; intros; try reflexivity; discriminate
             | ]
         end.
  intros H; inversion H; subst; repeat split; reflexivity.
Qed.

Lemma forEach_fields i elements :
  forall f f',
    forEach i elements f = Return f' ->
    startTime f' = startTime f /\ endTime f' = endTime f
    /\ (existsb (tagged "Wx") elements = false -> weather f' = weather f)
    /\ (existsb (tagged "PoP") elements = false -> rain f' = rain f)
    /\ (existsb (tagged "MinT") elements = false -> minTemp f' = minTemp f)
    /\ (existsb (tagged "MaxT") elements = false -> maxTemp f' = maxTemp f)
    /\ (existsb (tagged "CI") elements = false -> comfort f' = comfort f)
    /\ (existsb (tagged "WS") elements = false -> windSpeed f' = windSpeed f).
Proof.
  induction elements as [ | element rest IH]; intros f f'; cbn [forEach].
  - intros H; inversion H; subst; repeat split; reflexivity.
  - destruct (callback i f element) as [f1 | ] eqn:E; [cbn [bind] | discriminate].
    intros H; apply IH in H; apply callback_fields in E.
    destruct H as (H1 & H2 & H3 & H4 & H5 & H6 & H7 & H8).
    destruct E as (E1 & E2 & E3 & E4 & E5 & E6 & E7 & E8).
    cbn [existsb].
    repeat split; try congruence;
      intros Hno; apply orb_false_elim in Hno as [Ha Hb];
      [ rewrite H3, E3 | rewrite H4, E4 | rewrite H5, E5
      | rewrite H6, E6 | rewrite H7, E7 | rewrite H8, E8 ];
      auto.
Qed.

(** A visit to an element with none of the six tags, when its reads do
    not throw, returns the slot as it was. *)
Lemma callback_unknown i f element f' :
  known element = false ->
  callback i f element = Return f' -> f' = f.
Proof.
  intros Hknown; unfold callback.
  destruct (get element "time") as [time | ]; [cbn [bind] | discriminate].
  destruct (get_index time i) as [entry | ]; [cbn [bind] | discriminate].
  destruct (get entry "parameter") as [val | ]; [cbn [bind] | discriminate].
  destruct (get element "elementName") as [tagv | ] eqn:Etag; [cbn [bind] | discriminate].
  rewrite switch_unknown; [congruence | ].
  intros tag Hin Heq.
  pose proof (known_false _ _ Hknown Hin) as Hno.
  unfold tagged, get_opt in Hno.
  rewrite Etag, Heq, String.eqb_refl in Hno; discriminate.
Qed.

(** Leaving the elements with other tags out of the array does not change
    what [forEach] returns. *)
Lemma forEach_filter_known i elements :
  forall f0 f,
    forEach i elements f0 = Return f ->
    forEach i (filter known elements) f0 = Return f.
Proof.
  induction elements as [ | element rest IH]; intros f0 f; cbn [forEach filter].
  - trivial.
  - destruct (callback i f0 element) as [f1 | ] eqn:E; [cbn [bind] | discriminate].
    intros Hrest; destruct (known element) eqn:Hknown.
    + cbn [forEach]; rewrite E; cbn [bind]; apply IH; exact Hrest.
    + apply (callback_unknown _ _ _ _ Hknown) in E; subst f1.
      apply IH; exact Hrest.
Qed.

(** A slot that was built is the result of [forEach] on a record whose six
    fields are empty. *)
Lemma slot_forEach elements i f :
  slot (VArray elements) i = Return f ->
  exists start finish,
    forEach i elements
      (mkForecast start finish (VString "") (VString "") (VString "")
                  (VString "") (VString "") (VString "")) = Return f.
Proof.
  unfold slot; intros Hslot.
  repeat match type of Hslot with
         | bind ?r _ = _ =>
             destruct r; [cbn [bind] in Hslot | discriminate Hslot]
         end.
  cbn [weatherElements_forEach] in Hslot.
  eexists _, _; exact Hslot.
Qed.

(* ================================================================== *)
(** ** Reading the body of a success reply *)
(* ================================================================== *)

Lemma success_forecasts city updateTime forecasts :
  get_opt (get_opt (json (success city updateTime forecasts)) "data") "forecasts"
  = VArray (map forecast_object forecasts).
Proof. reflexivity. Qed.

Lemma item_reads f :
  get (forecast_object f) "startTime" = Return (startTime f)
  /\ get (forecast_object f) "endTime" = Return (endTime f)
  /\ get (forecast_object f) "weather" = Return (weather f)
  /\ get (forecast_object f) "rain" = Return (rain f)
  /\ get (forecast_object f) "minTemp" = Return (minTemp f)
  /\ get (forecast_object f) "maxTemp" = Return (maxTemp f)
  /\ get (forecast_object f) "comfort" = Return (comfort f)
  /\ get (forecast_object f) "windSpeed" = Return (windSpeed f).
Proof. repeat split. Qed.

(* ================================================================== *)
(** ** Properties of the handler *)
(* ================================================================== *)

Section Claims.

Variable toLowerCase : string -> string.

Local Abbreviation handler := (getWeatherByCity toLowerCase).

(** C1.  Success on a payload of the documented shape: with a valid
    identifier, a credential and a fulfilled call whose payload has [N]
    time entries in every weather element, the handler sends the success
    reply, code 200 and [success: true]; its [data.forecasts] is an array
    of exactly [N] slots, the slot at index [i] carries the start and end
    time found at index [i] of the first element's [time] array, and its
    [rain] is the [parameterName] of the [PoP] element at that index
    followed by a percent sign. *)
Theorem C1_well_formed_payload_reshaped e param name key res N :
  assoc (toLowerCase param) CITY_NAME_MAPPING = Some name ->
  CWA_API_KEY e = Some key -> key <> "" ->
  axios_get e (request key (Own name)) = Fulfilled res ->
  well_formed N (data res) = true ->
  let elements := elements_of (data res) in
  List.length (entries (hd VUndefined elements)) = N
  /\ exists r items,
       final (handler e param) = Sent r
       /\ r = success (get_opt (first_location (data res)) "locationName")
                      (get_opt (get_opt (data res) "records") "datasetDescription")
                      (expected_forecasts elements N)
       /\ code r = 200%Z
       /\ get (json r) "success" = Return (VBool true)
       /\ get_opt (get_opt (json r) "data") "forecasts" = VArray items
       /\ List.length items = N
       /\ forall i, (i < N)%nat ->
            exists item,
              nth_error items i = Some item
              /\ get item "startTime"
                 = Return (get_opt (entry (hd VUndefined elements) i) "startTime")
              /\ get item "endTime"
                 = Return (get_opt (entry (hd VUndefined elements) i) "endTime")
              /\ (forall element,
                    last_tagged "PoP" elements = Some element ->
                    exists s, parameterName_of element i = VString s
                              /\ get item "rain" = Return (VString (s ++ "%")))
              /\ (last_tagged "PoP" elements = None ->
                  get item "rain" = Return (VString "")).
Proof.
  intros Hcity Hkey Hne Hcall Hwf elements.
  rewrite (handler_fulfilled _ _ _ (Own name) key res)
    by eauto using lookup_own, table_names_truthy.
  destruct res as [st d]; cbn [data] in *.
  rewrite (reshape_well_formed N) by assumption.
  assert (Hall : elements <> [] /\ forallb (element_ok N) elements = true).
  { unfold well_formed in Hwf; apply andb_prop in Hwf as [_ Hwf].
    subst elements; destruct (elements_of d); [discriminate | ].
    split; [discriminate | assumption]. }
  destruct Hall as [Hnonempty Hall].
  split.
  { destruct elements as [ | first rest]; [contradiction | ].
    simpl in Hall; apply andb_prop in Hall as [Hfirst _].
    destruct (element_ok_time _ _ Hfirst) as [ts [_ [Hts Hlen]]].
    cbn [hd]; rewrite Hts; exact Hlen. }
  eexists _, _; split; [reflexivity | ].
  split; [reflexivity | ].
  split; [reflexivity | ].
  split; [reflexivity | ].
  split; [apply success_forecasts | ].
  split; [rewrite length_map; apply expected_forecasts_length | ].
  intros i Hi; exists (forecast_object (expected_slot elements i)).
  split; [apply map_nth_error, expected_forecasts_nth; exact Hi | ].
  split; [reflexivity | ].
  split; [reflexivity | ].
  split.
  - intros element Hlast.
    assert (Hok : element_ok N element = true).
    { rewrite forallb_forall in Hall; apply Hall.
      apply (last_tagged_In "PoP"); exact Hlast. }
    destruct (entry_parameter N element i Hok Hi) as [s [Hs _]].
    exists s; split; [exact Hs | ].
    destruct (item_reads (expected_slot elements i))
      as (_ & _ & _ & -> & _).
    cbn [expected_slot rain]; unfold expected_rain, decided_rain.
    rewrite Hlast, Hs; reflexivity.
  - intros Hlast.
    destruct (item_reads (expected_slot elements i))
      as (_ & _ & _ & -> & _).
    cbn [expected_slot rain]; unfold expected_rain, decided_rain.
    rewrite Hlast; reflexivity.
Qed.

(** C2, as amended.  With a valid identifier and a fulfilled call whose
    [records.location] is the empty array, the handler answers NoData:
    HTTP 404 and a message that contains the resolved location name. *)
Theorem C2_empty_location_is_NoData e param name key res :
  assoc (toLowerCase param) CITY_NAME_MAPPING = Some name ->
  CWA_API_KEY e = Some key -> key <> "" ->
  axios_get e (request key (Own name)) = Fulfilled res ->
  get_opt (get_opt (data res) "records") "location" = VArray [] ->
  final (handler e param) = Sent (no_data (Own name))
  /\ code (no_data (Own name)) = 404%Z
  /\ exists text,
       get (json (no_data (Own name))) "message" = Return (VString text)
       /\ contains name text.
Proof.
  intros Hcity Hkey Hne Hcall Hloc.
  rewrite (handler_fulfilled _ _ _ (Own name) key res)
    by eauto using lookup_own, table_names_truthy.
  unfold reshape.
  destruct (get_opt_chain _ _ _ _ Hloc) as [-> Hget]; [discriminate | ].
  cbn [bind]; rewrite Hget; cbn [bind get_index nth truthy negb].
  repeat split.
  eexists; split; [reflexivity | ].
  apply (contains_middle "無法取得 " name " 天氣資料").
Qed.

(** C3, as amended.  For a valid identifier in any letter case and a set
    credential, the handler issues exactly one upstream request, whose
    [locationName] is the name the table maps the identifier to; when
    that call is fulfilled with a payload of the documented shape, the
    reply is HTTP 200 with [success: true]. *)
Theorem C3_one_call_with_mapped_name e param name key :
  assoc (toLowerCase param) CITY_NAME_MAPPING = Some name ->
  CWA_API_KEY e = Some key -> key <> "" ->
  gets (trace (handler e param)) = [ request key (Own name) ]
  /\ locationName (request key (Own name)) = Own name
  /\ forall res N,
       axios_get e (request key (Own name)) = Fulfilled res ->
       well_formed N (data res) = true ->
       exists r, final (handler e param) = Sent r
                 /\ code r = 200%Z
                 /\ get (json r) "success" = Return (VBool true).
Proof.
  intros Hcity Hkey Hne; repeat split.
  - destruct (axios_get e (request key (Own name))) as [res | error] eqn:Hcall.
    + rewrite (handler_fulfilled _ _ _ (Own name) key res)
        by eauto using lookup_own, table_names_truthy.
      destruct (reshape (Own name) res); reflexivity.
    + rewrite (handler_rejected _ _ _ (Own name) key error)
        by eauto using lookup_own, table_names_truthy.
      reflexivity.
  - intros res N Hcall Hwf.
    rewrite (handler_fulfilled _ _ _ (Own name) key res)
      by eauto using lookup_own, table_names_truthy.
    destruct res as [st d]; cbn [data] in *.
    rewrite (reshape_well_formed N) by assumption.
    eexists; repeat split.
Qed.

(** Where the validation does reject: an identifier whose lowercased
    form the lookup does not find is answered with HTTP 400, without an
    upstream call, by a message that quotes the identifier as received
    and ends with the keys of the table, each once. *)
Lemma unknown_city_rejected e param :
  lookup (toLowerCase param) = None ->
  handler e param = mkRun [] (Sent (invalid_city param))
  /\ code (invalid_city param) = 400%Z
  /\ NoDup (Object_keys CITY_NAME_MAPPING)
  /\ exists before,
       get (json (invalid_city param)) "message"
       = Return (VString (before ++ param ++ "，請使用 "
                          ++ join ", " (Object_keys CITY_NAME_MAPPING))).
Proof.
  intros H; rewrite handler_rejects_unknown by assumption.
  repeat split; [apply Object_keys_NoDup | ].
  eexists; reflexivity.
Qed.

(** C5.  With a valid identifier and the credential unset or empty, the
    handler makes no upstream call and answers HTTP 500 with the fixed
    misconfiguration body, a text that is the same whatever the
    environment holds. *)
Theorem C5_missing_credential e param name :
  assoc (toLowerCase param) CITY_NAME_MAPPING = Some name ->
  CWA_API_KEY e = None \/ CWA_API_KEY e = Some "" ->
  trace (handler e param) = []
  /\ final (handler e param) = Sent misconfigured
  /\ code misconfigured = 500%Z
  /\ json misconfigured
     = VObject [ ("error", VString "伺服器設定錯誤");
                 ("message", VString "請在 .env 檔案中設定 CWA_API_KEY") ].
Proof.
  intros Hcity Hkey.
  rewrite (handler_without_key _ _ _ (Own name))
    by (eauto using lookup_own, table_names_truthy;
        destruct Hkey as [-> | ->]; reflexivity).
  repeat split.
Qed.

(** C6, as amended.  When the upstream call is rejected: without a
    response the handler answers HTTP 500 with the generic retry-later
    body; with a response whose body is neither [null] nor [undefined]
    it answers with the upstream's status code, the body's [message]
    when that is truthy and the fixed fallback text otherwise, and the
    body under [details].  Presence of the response alone selects the
    case. *)
Theorem C6_rejected_call_mapping e param name key error :
  assoc (toLowerCase param) CITY_NAME_MAPPING = Some name ->
  CWA_API_KEY e = Some key -> key <> "" ->
  axios_get e (request key (Own name)) = Rejected error ->
  (response error = None ->
     final (handler e param) = Sent server_error
     /\ code server_error = 500%Z
     /\ get (json server_error) "message"
        = Return (VString "無法取得天氣資料，請稍後再試"))
  /\ (forall r,
        response error = Some r -> nullish (data r) = false ->
        exists sent,
          final (handler e param) = Sent sent
          /\ code sent = status r
          /\ get (json sent) "message"
             = Return (if truthy (get_opt (data r) "message")
                       then get_opt (data r) "message"
                       else VString "無法取得天氣資料")
          /\ get (json sent) "details" = Return (data r)).
Proof.
  intros Hcity Hkey Hne Hcall.
  rewrite (handler_rejected _ _ _ (Own name) key error)
    by eauto using lookup_own, table_names_truthy.
  unfold catch_block; cbn [snd final]; split.
  - intros ->; repeat split.
  - intros r -> Hbody.
    rewrite (get_not_nullish _ _ Hbody).
    eexists; repeat split.
Qed.

(** C8.  The reply is a function of the identifier and of the upstream
    payload alone: two invocations with the same identifier whose calls
    are fulfilled with the same payload send the same body, byte for
    byte, whatever the clock, the credential in use and the status line
    of the upstream response are. *)
Theorem C8_same_payload_same_body e1 e2 param name key1 key2 st1 st2 d :
  lookup (toLowerCase param) = Some name ->
  CWA_API_KEY e1 = Some key1 -> key1 <> "" ->
  CWA_API_KEY e2 = Some key2 -> key2 <> "" ->
  axios_get e1 (request key1 name) = Fulfilled (mkResponse st1 d) ->
  axios_get e2 (request key2 name) = Fulfilled (mkResponse st2 d) ->
  final (handler e1 param) = final (handler e2 param)
  /\ body_text (final (handler e1 param)) = body_text (final (handler e2 param)).
Proof.
  intros Hcity Hk1 Hn1 Hk2 Hn2 Hc1 Hc2.
  pose proof (lookup_truthy _ _ Hcity) as Htruthy.
  assert (H : final (handler e1 param) = final (handler e2 param)).
  { rewrite (handler_fulfilled _ e1 _ name key1 (mkResponse st1 d)) by assumption.
    rewrite (handler_fulfilled _ e2 _ name key2 (mkResponse st2 d)) by assumption.
    change (reshape name (mkResponse st2 d)) with (reshape name (mkResponse st1 d)).
    destruct (reshape name (mkResponse st1 d)); reflexivity. }
  split; [exact H | rewrite H; reflexivity].
Qed.

(** C9.  With a valid identifier and a fulfilled call: when the payload
    has no [records] object, or when its first location is there but
    carries an empty [weatherElement] array, the property access throws
    inside the [try] block and the handler answers with the generic
    HTTP 500 reply, a body of [error] and [message]; it does not answer
    NoData and does not leave the error unhandled. *)
Theorem C9_missing_parts_answer_500 e param name key res :
  assoc (toLowerCase param) CITY_NAME_MAPPING = Some name ->
  CWA_API_KEY e = Some key -> key <> "" ->
  axios_get e (request key (Own name)) = Fulfilled res ->
  nullish (get_opt (data res) "records") = true
  \/ (exists loc others,
        get_opt (get_opt (data res) "records") "location" = VArray (loc :: others)
        /\ truthy loc = true
        /\ get_opt loc "weatherElement" = VArray []) ->
  final (handler e param) = Sent server_error
  /\ code server_error = 500%Z
  /\ server_error <> no_data (Own name)
  /\ json server_error
     = VObject [ ("error", VString "伺服器錯誤");
                 ("message", VString "無法取得天氣資料，請稍後再試") ].
Proof.
  intros Hcity Hkey Hne Hcall Hshape.
  rewrite (handler_fulfilled _ _ _ (Own name) key res)
    by eauto using lookup_own, table_names_truthy.
  assert (Hthrow : exists text, reshape (Own name) res = Throw (TypeError text)).
  { unfold reshape; destruct Hshape as [Hrec | (loc & others & Hloc & Htruthy & Hels)].
    - destruct (nullish (data res)) eqn:Hdata.
      + rewrite (get_nullish _ _ Hdata); eexists; reflexivity.
      + rewrite (get_not_nullish _ _ Hdata); cbn [bind].
        rewrite (get_nullish _ _ Hrec); eexists; reflexivity.
    - destruct (get_opt_chain _ _ _ _ Hloc) as [Hrecords Hget]; [discriminate | ].
      rewrite Hrecords; cbn [bind]; rewrite Hget; cbn [bind get_index nth].
      rewrite Htruthy; cbn [negb].
      rewrite (get_not_nullish loc "locationName") by (apply truthy_not_nullish; assumption).
      cbn [bind].
      rewrite (get_not_nullish (get_opt (data res) "records") "datasetDescription")
        by (destruct (get_opt (data res) "records"); try reflexivity; discriminate).
      cbn [bind].
      rewrite (get_opt_defined _ _ _ Hels) by discriminate.
      eexists; reflexivity. }
  destruct Hthrow as [text ->].
  repeat split; discriminate.
Qed.

End Claims.

(** C4, at an identifier that is no key of the table.  The lowercased
    form of [constructor] is not among the keys, yet the lookup finds the
    member every object inherits and the validation lets the request
    through: without a credential the answer is HTTP 500, and with one an
    upstream call is made whose [locationName] is that inherited member;
    on an empty [location] array the answer is HTTP 404. *)
Theorem C4_inherited_member_passes_validation :
  assoc (ascii_toLowerCase "constructor") CITY_NAME_MAPPING = None
  /\ getWeatherByCity ascii_toLowerCase
       (env_with None (Fulfilled (mkResponse 200 payload_empty_location)))
       "constructor"
     = mkRun [] (Sent misconfigured)
  /\ getWeatherByCity ascii_toLowerCase
       (env_with (Some "KEY") (Fulfilled (mkResponse 200 payload_empty_location)))
       "constructor"
     = mkRun [ Get (request "KEY" (Inherited "constructor")) ]
             (Sent (no_data (Inherited "constructor")))
  /\ code misconfigured <> 400%Z
  /\ code (no_data (Inherited "constructor")) <> 400%Z.
Proof. repeat split; discriminate. Qed.

(** C10.  The branch for a rejection that carries a response reads
    [message] of the response body: on a body that is [null] or
    [undefined] the read throws out of the [catch] block and nothing is
    sent; on any other body the branch sends the upstream's status, the
    body's [message] when it is there and truthy and the fixed fallback
    text otherwise, and the body itself under [details]. *)
Theorem C10_upstream_branch_needs_body name error r :
  response error = Some r ->
  (nullish (data r) = true ->
     exists thrown, snd (catch_block name error) = Unhandled thrown)
  /\ (nullish (data r) = false ->
      snd (catch_block name error)
      = Sent (mkReply (status r) (VObject
          [ ("error", VString "CWA API 錯誤");
            ("message", if truthy (get_opt (data r) "message")
                        then get_opt (data r) "message"
                        else VString "無法取得天氣資料");
            ("details", data r) ]))).
Proof.
  intros Hres; unfold catch_block; cbn [snd]; rewrite Hres; split; intros Hbody.
  - rewrite (get_nullish _ _ Hbody); eexists; reflexivity.
  - rewrite (get_not_nullish _ _ Hbody); reflexivity.
Qed.

(* ================================================================== *)
(** ** The handler on concrete requests *)
(* ================================================================== *)

(** The health route reads the clock, the forecast route does not. *)
Example health_reads_the_clock :
  health (mkEnv None (fun _ => Rejected (TypeError "")) "2024-01-01T00:00:00.000Z")
  <> health (mkEnv None (fun _ => Rejected (TypeError "")) "2024-01-01T00:00:01.000Z").
Proof. discriminate. Qed.

Example scenario_mixed_case_taipei :
  trace (getWeatherByCity ascii_toLowerCase sample_env "TaiPei")
  = [ Get (request "KEY" (Own "臺北市")) ]
  /\ final (getWeatherByCity ascii_toLowerCase sample_env "TaiPei")
     = Sent (success (VString "臺北市") (VString "三十六小時天氣預報")
                     (expected_forecasts sample_elements 2)).
Proof. split; reflexivity. Qed.

Example scenario_unknown_city :
  getWeatherByCity ascii_toLowerCase sample_env "unknown"
  = mkRun [] (Sent (mkReply 400 (VObject
      [ ("error", VString "無效的城市 ID");
        ("message", VString "不支援查詢此城市: unknown，請使用 taipei, newtaipei, taoyuan, taichung, tainan, kaohsiung") ]))).
Proof. reflexivity. Qed.

Example scenario_upstream_503 :
  final (getWeatherByCity ascii_toLowerCase
           (env_with (Some "KEY")
              (rejection 503 (VObject [ ("message", VString "Service Unavailable") ])))
           "kaohsiung")
  = Sent (mkReply 503 (VObject
      [ ("error", VString "CWA API 錯誤");
        ("message", VString "Service Unavailable");
        ("details", VObject [ ("message", VString "Service Unavailable") ]) ])).
Proof. reflexivity. Qed.

(** The runtime at the edges: numbers as text, numerals as loop bounds,
    positions in text beyond the Basic Multilingual Plane. *)
Example numbers_as_text :
  to_string (VNumber 1000000000000000000000) = Return "1e+21"
  /\ to_string (VNumber 999999999999999900000) = Return "999999999999999900000"
  /\ to_string (VNumber 18446744073709551616) = Return "18446744073709552000"
  /\ to_string (VNumber (-1180591620717411303424)) = Return "-1.1805916207174113e+21"
  /\ to_string (VNumber 9007199254740991) = Return "9007199254740991"
  /\ JSON_stringify (VArray [ VNumber 1000000000000000000000; VNumber (-7) ])
     = Some "[1e+21,-7]".
Proof. repeat split; vm_compute; reflexivity. Qed.

Example numerals_as_loop_bounds :
  iterations (VString "0x2") = Return (Some 2%Z)
  /\ iterations (VString "1e1") = Return (Some 10%Z)
  /\ iterations (VString "2.0") = Return (Some 2%Z)
  /\ iterations (VString " 2.5 ") = Return (Some 3%Z)
  /\ iterations (VString "") = Return (Some 0%Z)
  /\ iterations (VString "two") = Return (Some 0%Z)
  /\ iterations (VString "-3") = Return (Some 0%Z)
  /\ iterations (VString "Infinity") = Return None
  /\ iterations (VArray [ VString "3" ]) = Return (Some 3%Z)
  /\ iterations VUndefined = Return (Some 0%Z).
Proof. repeat split; vm_compute; reflexivity. Qed.

Example positions_in_text :
  get (VString "a😀") "length" = Return (VNumber 3)
  /\ get (VString "臺北市") "length" = Return (VNumber 3)
  /\ get_index (VString "a😀") 1 = Return (VString (three_bytes 55357))
  /\ get_index (VString "a😀") 2 = Return (VString (three_bytes 56832))
  /\ get_index (VString "a😀") 3 = Return VUndefined
  /\ JSON_stringify (VString (three_bytes 55357))
     = Some (quotation_mark ++ "\ud83d" ++ quotation_mark).
Proof. repeat split; vm_compute; reflexivity. Qed.

(** A [time] object whose [length] is the text [0x2] gives two slots; one
    whose [length] is [Infinity] runs the loop until the read of a
    missing entry throws. *)
Example scenario_time_object :
  (exists r first second,
     final (getWeatherByCity ascii_toLowerCase
              (env_with (Some "KEY") (Fulfilled (mkResponse 200 (payload_time_object "0x2"))))
              "taipei") = Sent r
     /\ code r = 200%Z
     /\ get_opt (get_opt (json r) "data") "forecasts" = VArray [ first; second ]
     /\ get first "rain" = Return (VString "20%")
     /\ get second "rain" = Return (VString "70%"))
  /\ final (getWeatherByCity ascii_toLowerCase
              (env_with (Some "KEY")
                 (Fulfilled (mkResponse 200 (payload_time_object "Infinity"))))
              "taipei") = Sent server_error.
Proof.
  split; [ | vm_compute; reflexivity].
  eexists _, _, _; split; [vm_compute; reflexivity | ].
  repeat split.
Qed.

Example scenario_number_as_rain :
  body_text (final (getWeatherByCity ascii_toLowerCase
               (env_with (Some "KEY")
                  (Fulfilled (mkResponse 200 (payload_number 1000000000000000000000))))
               "taipei"))
  = Some ("{" ++ quote "success" ++ ":true," ++ quote "data" ++ ":{"
          ++ quote "city" ++ ":" ++ quote "臺北市" ++ ","
          ++ quote "updateTime" ++ ":" ++ quote "三十六小時天氣預報" ++ ","
          ++ quote "forecasts" ++ ":[{"
          ++ quote "startTime" ++ ":" ++ quote "2024-01-01 06:00:00" ++ ","
          ++ quote "endTime" ++ ":" ++ quote "2024-01-01 18:00:00" ++ ","
          ++ quote "weather" ++ ":" ++ quote "" ++ ","
          ++ quote "rain" ++ ":" ++ quote "1e+21%" ++ ","
          ++ quote "minTemp" ++ ":" ++ quote "" ++ ","
          ++ quote "maxTemp" ++ ":" ++ quote "" ++ ","
          ++ quote "comfort" ++ ":" ++ quote "" ++ ","
          ++ quote "windSpeed" ++ ":" ++ quote "" ++ "}]}}").
Proof. vm_compute; reflexivity. Qed.

(* ================================================================== *)
(** ** Inputs on which the stated claims fail *)
(* ================================================================== *)

(** C2 as stated: with [records.location] absent the answer is not NoData
    but the generic HTTP 500 reply. *)
Lemma C2_absent_location_answers_500 :
  get_opt (get_opt payload_without_location "records") "location" = VUndefined
  /\ final (getWeatherByCity ascii_toLowerCase
              (env_with (Some "KEY") (Fulfilled (mkResponse 200 payload_without_location)))
              "taipei")
     = Sent server_error
  /\ code server_error <> 404%Z.
Proof. repeat split; discriminate. Qed.

(** C7 as stated: an element with an unknown tag is not ignored.  Line
    102 reads its [time[i].parameter] before the switch, so one without a
    [time] array turns the success of the sample elements into the
    generic HTTP 500; and at the first position of the array its [time]
    array gives the number of slots and their times. *)
Lemma C7_unknown_element_is_read :
  (known unknown_without_time = false
   /\ final (getWeatherByCity ascii_toLowerCase
               (env_with (Some "KEY")
                  (Fulfilled (mkResponse 200
                     (payload_with "臺北市" (sample_elements ++ [ unknown_without_time ])))))
               "taipei")
      = Sent server_error
   /\ final (getWeatherByCity ascii_toLowerCase
               (env_with (Some "KEY")
                  (Fulfilled (mkResponse 200 (payload_with "臺北市" sample_elements))))
               "taipei")
      = Sent (success (VString "臺北市") (VString "三十六小時天氣預報")
                      (expected_forecasts sample_elements 2)))
  /\ known unknown_with_one_entry = false
  /\ exists r item,
       final (getWeatherByCity ascii_toLowerCase
                (env_with (Some "KEY")
                   (Fulfilled (mkResponse 200
                      (payload_with "臺北市" (unknown_with_one_entry :: sample_elements)))))
                "taipei")
       = Sent r
       /\ get_opt (get_opt (json r) "data") "forecasts" = VArray [ item ]
       /\ get item "startTime" = Return (VString "2030-01-01 00:00:00")
       /\ get item "weather" = Return (VString "晴時多雲").
Proof.
  split; [repeat split | ].
  split; [reflexivity | ].
  eexists _, _; split; [reflexivity | ].
  split; [reflexivity | ]. split; reflexivity.
Qed.

(** C3 as stated: a valid identifier alone does not make the call happen;
    without a credential no request is issued and the reply is no success. *)
Lemma C3_valid_city_without_credential :
  assoc (ascii_toLowerCase "TAIPEI") CITY_NAME_MAPPING = Some "臺北市"
  /\ getWeatherByCity ascii_toLowerCase
       (env_with None (Fulfilled (mkResponse 200 sample_payload))) "TAIPEI"
     = mkRun [] (Sent misconfigured)
  /\ get (json misconfigured) "success" = Return VUndefined.
Proof. repeat split. Qed.

(** C6 as stated: a [message] that is present but empty is not passed on,
    and with a [null] body nothing is returned at all. *)
Lemma C6_falsy_message_and_null_body :
  (own_property "message" [ ("message", VString "") ] = Some (VString "")
   /\ exists sent,
        final (getWeatherByCity ascii_toLowerCase
                 (env_with (Some "KEY") (rejection 503 (VObject [ ("message", VString "") ])))
                 "taipei") = Sent sent
        /\ get (json sent) "message" = Return (VString "無法取得天氣資料"))
  /\ final (getWeatherByCity ascii_toLowerCase
              (env_with (Some "KEY") (rejection 503 VNull)) "taipei")
     = Unhandled (cannot_read VNull "message").
Proof.
  split; [split; [reflexivity | eexists; split; reflexivity] | reflexivity].
Qed.

(* ================================================================== *)
(** ** The properties at sample requests *)
(* ================================================================== *)

Lemma C1_sample :
  well_formed 2 sample_payload = true
  /\ exists r items,
       final (getWeatherByCity ascii_toLowerCase sample_env "TAIPEI") = Sent r
       /\ get (json r) "success" = Return (VBool true)
       /\ get_opt (get_opt (json r) "data") "forecasts" = VArray items
       /\ List.length items = 2%nat
       /\ exists item, nth_error items 1 = Some item
                       /\ get item "startTime" = Return (VString "2024-01-01 18:00:00")
                       /\ get item "rain" = Return (VString "70%").
Proof.
  split; [reflexivity | ].
  destruct (C1_well_formed_payload_reshaped ascii_toLowerCase sample_env
              "TAIPEI" "臺北市" "KEY" (mkResponse 200 sample_payload) 2
              eq_refl eq_refl ltac:(discriminate) eq_refl eq_refl)
    as [_ (r & items & Hsent & _ & _ & Hsuccess & Hitems & Hlen & Hslots)].
  exists r, items.
  split; [exact Hsent | ]. split; [exact Hsuccess | ].
  split; [exact Hitems | ]. split; [exact Hlen | ].
  destruct (Hslots 1%nat ltac:(lia)) as (item & Hnth & Hstart & _ & Hrain & _).
  exists item; split; [exact Hnth | ]. split; [exact Hstart | ].
  destruct (Hrain (sample_element "PoP" "20" "70") eq_refl) as (s & Hs & Hr).
  rewrite Hr; inversion Hs; reflexivity.
Defined.

Lemma C2_sample :
  final (getWeatherByCity ascii_toLowerCase
           (env_with (Some "KEY") (Fulfilled (mkResponse 200 payload_empty_location)))
           "taipei")
  = Sent (no_data (Own "臺北市"))
  /\ code (no_data (Own "臺北市")) = 404%Z
  /\ exists text,
       get (json (no_data (Own "臺北市"))) "message" = Return (VString text)
       /\ contains "臺北市" text.
Proof.
  apply (C2_empty_location_is_NoData ascii_toLowerCase
           (env_with (Some "KEY") (Fulfilled (mkResponse 200 payload_empty_location)))
           "taipei" "臺北市" "KEY" (mkResponse 200 payload_empty_location)
           eq_refl eq_refl ltac:(discriminate) eq_refl eq_refl).
Defined.

Lemma C3_sample :
  gets (trace (getWeatherByCity ascii_toLowerCase sample_env "TAIPEI"))
  = [ request "KEY" (Own "臺北市") ]
  /\ exists r, final (getWeatherByCity ascii_toLowerCase sample_env "TAIPEI") = Sent r
               /\ get (json r) "success" = Return (VBool true).
Proof.
  destruct (C3_one_call_with_mapped_name ascii_toLowerCase sample_env
              "TAIPEI" "臺北市" "KEY" eq_refl eq_refl ltac:(discriminate))
    as (Hgets & _ & Hsuccess).
  split; [exact Hgets | ].
  destruct (Hsuccess (mkResponse 200 sample_payload) 2%nat eq_refl eq_refl)
    as (r & Hsent & _ & Hflag).
  exists r; split; assumption.
Defined.

Lemma C5_sample :
  trace (getWeatherByCity ascii_toLowerCase
           (env_with (Some "") (Fulfilled (mkResponse 200 sample_payload))) "Tainan") = []
  /\ final (getWeatherByCity ascii_toLowerCase
              (env_with None (Fulfilled (mkResponse 200 sample_payload))) "Tainan")
     = Sent misconfigured.
Proof.
  split.
  - apply (C5_missing_credential ascii_toLowerCase
             (env_with (Some "") (Fulfilled (mkResponse 200 sample_payload)))
             "Tainan" "臺南市" eq_refl (or_intror eq_refl)).
  - apply (C5_missing_credential ascii_toLowerCase
             (env_with None (Fulfilled (mkResponse 200 sample_payload)))
             "Tainan" "臺南市" eq_refl (or_introl eq_refl)).
Defined.

Lemma C6_sample :
  final (getWeatherByCity ascii_toLowerCase
           (env_with (Some "KEY") (Rejected (mkError "getaddrinfo ENOTFOUND" None)))
           "taoyuan")
  = Sent server_error
  /\ exists sent,
       final (getWeatherByCity ascii_toLowerCase
                (env_with (Some "KEY")
                   (rejection 401 (VObject [ ("message", VString "Unauthorized") ])))
                "taoyuan") = Sent sent
       /\ code sent = 401%Z
       /\ get (json sent) "message" = Return (VString "Unauthorized").
Proof.
  split.
  - destruct (C6_rejected_call_mapping ascii_toLowerCase
                (env_with (Some "KEY") (Rejected (mkError "getaddrinfo ENOTFOUND" None)))
                "taoyuan" "桃園市" "KEY" (mkError "getaddrinfo ENOTFOUND" None)
                eq_refl eq_refl ltac:(discriminate) eq_refl) as [H _].
    destruct (H eq_refl) as [Hsent _]; exact Hsent.
  - destruct (C6_rejected_call_mapping ascii_toLowerCase
                (env_with (Some "KEY")
                   (rejection 401 (VObject [ ("message", VString "Unauthorized") ])))
                "taoyuan" "桃園市" "KEY"
                (mkError "Request failed"
                   (Some (mkResponse 401 (VObject [ ("message", VString "Unauthorized") ]))))
                eq_refl eq_refl ltac:(discriminate) eq_refl) as [_ H].
    destruct (H _ eq_refl eq_refl) as (sent & Hsent & Hcode & Hmessage & _).
    exists sent; repeat split; assumption.
Defined.

Lemma C8_sample :
  body_text (final (getWeatherByCity ascii_toLowerCase sample_env "taichung"))
  = body_text (final (getWeatherByCity ascii_toLowerCase
                        (mkEnv (Some "OTHER-KEY")
                               (fun _ => Fulfilled (mkResponse 203 sample_payload))
                               "2031-12-31T23:59:59.999Z")
                        "taichung")).
Proof.
  apply (C8_same_payload_same_body ascii_toLowerCase sample_env
           (mkEnv (Some "OTHER-KEY")
                  (fun _ => Fulfilled (mkResponse 203 sample_payload))
                  "2031-12-31T23:59:59.999Z")
           "taichung" (Own "臺中市") "KEY" "OTHER-KEY" 200 203 sample_payload
           eq_refl eq_refl ltac:(discriminate) eq_refl ltac:(discriminate)
           eq_refl eq_refl).
Defined.

Lemma C9_sample :
  final (getWeatherByCity ascii_toLowerCase
           (env_with (Some "KEY") (Fulfilled (mkResponse 200 (VObject []))))
           "newtaipei")
  = Sent server_error
  /\ final (getWeatherByCity ascii_toLowerCase
              (env_with (Some "KEY") (Fulfilled (mkResponse 200 (VObject
                 [ ("records", VObject
                      [ ("location", VArray
                           [ VObject [ ("locationName", VString "新北市");
                                       ("weatherElement", VArray []) ] ]) ]) ]))))
              "newtaipei")
     = Sent server_error.
Proof.
  split.
  - apply (C9_missing_parts_answer_500 ascii_toLowerCase
             (env_with (Some "KEY") (Fulfilled (mkResponse 200 (VObject []))))
             "newtaipei" "新北市" "KEY" (mkResponse 200 (VObject []))
             eq_refl eq_refl ltac:(discriminate) eq_refl (or_introl eq_refl)).
  - apply (C9_missing_parts_answer_500 ascii_toLowerCase
             (env_with (Some "KEY") (Fulfilled (mkResponse 200 (VObject
                [ ("records", VObject
                     [ ("location", VArray
                          [ VObject [ ("locationName", VString "新北市");
                                      ("weatherElement", VArray []) ] ]) ]) ]))))
             "newtaipei" "新北市" "KEY" _ eq_refl eq_refl ltac:(discriminate) eq_refl).
    right; eexists _, _; repeat split.
Defined.

Lemma C10_sample :
  (exists thrown,
     snd (catch_block (Own "臺北市") (mkError "Request failed" (Some (mkResponse 502 VNull))))
     = Unhandled thrown)
  /\ snd (catch_block (Own "臺北市")
            (mkError "Request failed" (Some (mkResponse 429 (VString "Too Many Requests")))))
     = Sent (mkReply 429 (VObject
         [ ("error", VString "CWA API 錯誤");
           ("message", VString "無法取得天氣資料");
           ("details", VString "Too Many Requests") ])).
Proof.
  split.
  - apply (C10_upstream_branch_needs_body (Own "臺北市")
             (mkError "Request failed" (Some (mkResponse 502 VNull)))
             (mkResponse 502 VNull) eq_refl); reflexivity.
  - apply (C10_upstream_branch_needs_body (Own "臺北市")
             (mkError "Request failed" (Some (mkResponse 429 (VString "Too Many Requests"))))
             (mkResponse 429 (VString "Too Many Requests")) eq_refl); reflexivity.
Defined.

(* ================================================================== *)
(** ** What is thrown while reshaping *)
(* ================================================================== *)

Lemma value_nested_ind (P : value -> Prop) :
  P VUndefined -> P VNull ->
  (forall b, P (VBool b)) -> (forall z, P (VNumber z)) ->
  (forall s, P (VString s)) ->
  (forall items, Forall P items -> P (VArray items)) ->
  (forall props, P (VObject props)) ->
  forall v, P v.
Proof.
  intros HU HN HB HZ HS HA HO.
  fix IH 1; intros [ | | b | z | s | items | props];
    [ exact HU | exact HN | apply HB | apply HZ | apply HS | | apply HO ].
  apply HA; revert items; fix IHl 1; intros [ | x rest]; constructor;
    [apply IH | apply IHl].
Qed.

Lemma get_throws v name e : get v name = Throw e -> response e = None.
Proof. destruct v; simpl; intros H; inversion H; reflexivity. Qed.

Lemma get_index_throws v i e : get_index v i = Throw e -> response e = None.
Proof. destruct v; simpl; intros H; inversion H; reflexivity. Qed.

Lemma to_string_throws v : forall e, to_string v = Throw e -> response e = None.
Proof.
  induction v as [ | | b | z | s | items IH | props] using value_nested_ind;
    intros e; cbn [to_string]; try discriminate.
  - revert e; induction IH as [ | x rest Hx _ IHrest]; intros e; [discriminate | ].
    destruct (match x with VUndefined | VNull => Return "" | _ => to_string x end)
      as [sx | ex] eqn:Ex; cbn [bind].
    + destruct rest as [ | y rest']; [discriminate | ].
      intros H.
      match type of H with
      | bind ?r _ = _ => destruct r as [sr | er] eqn:Er; [discriminate | ]
      end.
      cbn [bind] in H; inversion H; subst.
      apply IHrest; reflexivity.
    + intros H; inversion H; subst.
      destruct x; try discriminate; apply (Hx _ Ex).
  - destruct (own_property "toString" props); intros H; inversion H; reflexivity.
Qed.

(** Splits [let* x := r in k = Throw e] into the case where [r] threw,
    closed by the lemma for [r], and the case where it returned. *)
Ltac thrown_by H lemma :=
  unfold bind in H; cbv beta iota in H;
  match type of H with
  | match ?r with _ => _ end = Throw _ =>
      let E := fresh "E" in
      destruct r eqn:E;
      [ cbv beta iota in H | inversion H; subst; eauto using lemma ]
  end.

Lemma add_string_throws v suffix e :
  add_string v suffix = Throw e -> response e = None.
Proof.
  unfold add_string; intros H.
  thrown_by H to_string_throws; discriminate.
Qed.

Lemma to_number_throws v e : to_number v = Throw e -> response e = None.
Proof.
  unfold to_number; destruct v; try discriminate;
    intros H; thrown_by H to_string_throws; discriminate.
Qed.

Lemma iterations_throws v e : iterations v = Throw e -> response e = None.
Proof.
  unfold iterations; intros H.
  thrown_by H to_number_throws; discriminate.
Qed.

Lemma switch_throws elementName val f e :
  switch elementName val f = Throw e -> response e = None.
Proof.
  unfold switch; destruct elementName as [ | | | | t | | ]; try discriminate.
  repeat match goal with
         | |- context [ if ?b then _ else _ ] => destruct b
         end;
    intros H; try discriminate;
    (thrown_by H get_throws; try discriminate;
     thrown_by H add_string_throws; discriminate).
Qed.

Lemma callback_throws i f element e :
  callback i f element = Throw e -> response e = None.
Proof.
  unfold callback; intros H.
  thrown_by H get_throws.
  thrown_by H get_index_throws.
  thrown_by H get_throws.
  thrown_by H get_throws.
  eauto using switch_throws.
Qed.

Lemma forEach_throws i elements :
  forall f e, forEach i elements f = Throw e -> response e = None.
Proof.
  induction elements as [ | element rest IH]; intros f e; cbn [forEach];
    [discriminate | ].
  intros H; thrown_by H callback_throws; eauto.
Qed.

Lemma slot_throws weatherElements i e :
  slot weatherElements i = Throw e -> response e = None.
Proof.
  unfold slot; intros H.
  thrown_by H get_index_throws.
  thrown_by H get_throws.
  thrown_by H get_index_throws.
  thrown_by H get_throws.
  thrown_by H get_throws.
  unfold weatherElements_forEach in H.
  destruct weatherElements; try (inversion H; reflexivity).
  eauto using forEach_throws.
Qed.

Lemma for_loop_throws weatherElements todo :
  forall i forecasts e,
    for_loop weatherElements todo i forecasts = Throw e -> response e = None.
Proof.
  induction todo as [ | todo IH]; intros i forecasts e; cbn [for_loop];
    [discriminate | ].
  intros H; thrown_by H slot_throws; eauto.
Qed.

(** Whatever is thrown between lines 70 and 131 is an error of the
    handler's own reads, one without a [response]. *)
Lemma reshape_throws name res e :
  reshape name res = Throw e -> response e = None.
Proof.
  unfold reshape; intros H.
  thrown_by H get_throws.
  thrown_by H get_throws.
  thrown_by H get_index_throws.
  destruct (negb (truthy a1)); [discriminate | ].
  thrown_by H get_throws.
  thrown_by H get_throws.
  thrown_by H get_throws.
  thrown_by H get_index_throws.
  thrown_by H get_throws.
  thrown_by H get_throws.
  thrown_by H iterations_throws.
  thrown_by H for_loop_throws.
  discriminate.
Qed.

(** What the reshaping returns is the NoData reply or a success reply. *)
Lemma reshape_returns name res r :
  reshape name res = Return r ->
  r = no_data name \/ exists city updateTime forecasts, r = success city updateTime forecasts.
Proof.
  unfold reshape; intros H.
  unfold bind in H; cbv beta iota in H.
  repeat match type of H with
         | match ?x with _ => _ end = Return _ =>
             destruct x; [cbv beta iota in H | try discriminate H]
         end;
    inversion H; subst; eauto.
Qed.

(** The catch block answers an error without a response with the generic
    reply. *)
Lemma catch_block_local name error :
  response error = None -> snd (catch_block name error) = Sent server_error.
Proof. unfold catch_block; cbn [snd]; intros ->; reflexivity. Qed.

Lemma get_index_not_nullish v i :
  nullish v = false -> get_index v i = Return (index_opt v i).
Proof.
  unfold index_opt; destruct v; simpl; intros H; try discriminate; reflexivity.
Qed.

Lemma get_returns v name x : get v name = Return x -> get_opt v name = x.
Proof. unfold get_opt; intros ->; reflexivity. Qed.

Lemma get_index_returns v i x : get_index v i = Return x -> index_opt v i = x.
Proof. unfold index_opt; intros ->; reflexivity. Qed.

Lemma get_returns_not_nullish v name x : get v name = Return x -> nullish v = false.
Proof. destruct v; simpl; intros H; try discriminate; reflexivity. Qed.

Lemma get_index_returns_not_nullish v i x :
  get_index v i = Return x -> nullish v = false.
Proof. destruct v; simpl; intros H; try discriminate; reflexivity. Qed.

(** The reads of line 70 succeed exactly when [location] can be indexed. *)
Lemma located_reads d :
  nullish (location_of d) = false ->
  get d "records" = Return (get_opt d "records")
  /\ get (get_opt d "records") "location" = Return (location_of d)
  /\ get_index (location_of d) 0 = Return (located d).
Proof.
  intros H; unfold located.
  destruct (get_opt_chain d "records" "location" (location_of d) eq_refl) as [H1 H2].
  - intros Heq; rewrite Heq in H; discriminate.
  - repeat split; try assumption; apply get_index_not_nullish; exact H.
Qed.

Lemma reshape_no_data name res :
  reshape name res = Return (no_data name)
  <-> nullish (location_of (data res)) = false
      /\ truthy (located (data res)) = false.
Proof.
  split.
  - unfold reshape, located, location_of; intros H.
    destruct (get (data res) "records") as [records | ] eqn:E1; [ | discriminate].
    rewrite (get_returns _ _ _ E1); cbn [bind] in H.
    destruct (get records "location") as [location | ] eqn:E2; [ | discriminate].
    rewrite (get_returns _ _ _ E2); cbn [bind] in H.
    destruct (get_index location 0) as [x | ] eqn:E3; [ | discriminate].
    rewrite (get_index_returns _ _ _ E3); cbn [bind] in H.
    split; [eapply get_index_returns_not_nullish; eauto | ].
    destruct (truthy x); [ | reflexivity].
    exfalso; cbn [negb] in H.
    unfold bind in H; cbv beta iota in H.
    repeat match type of H with
           | match ?r with _ => _ end = Return _ =>
               destruct r; [cbv beta iota in H | discriminate H]
           end.
    discriminate.
  - intros [Hloc Hfalsy]; unfold reshape.
    destruct (located_reads _ Hloc) as (-> & H2 & H3).
    cbn [bind]; rewrite H2; cbn [bind]; rewrite H3; cbn [bind].
    rewrite Hfalsy; reflexivity.
Qed.

(* ================================================================== *)
(** ** The handler as a whole *)
(* ================================================================== *)

Lemma lookup_None key :
  lookup key = None <->
  ~ In key (Object_keys CITY_NAME_MAPPING) /\ ~ In key Object_prototype.
Proof.
  unfold lookup; split.
  - destruct (assoc key CITY_NAME_MAPPING) as [name | ] eqn:E; [discriminate | ].
    destruct (existsb (String.eqb key) Object_prototype) eqn:Ex; [discriminate | ].
    intros _; split.
    + intros Hin; apply Object_keys_assoc in Hin as [name Hname]; congruence.
    + intros Hin.
      assert (existsb (String.eqb key) Object_prototype = true)
        by (apply existsb_exists; exists key; split;
            [exact Hin | apply String.eqb_refl]).
      congruence.
  - intros [Hkeys Hproto].
    destruct (assoc key CITY_NAME_MAPPING) as [name | ] eqn:E.
    + exfalso; apply Hkeys, Object_keys_assoc; eauto.
    + destruct (existsb (String.eqb key) Object_prototype) eqn:Ex; [ | reflexivity].
      apply existsb_exists in Ex as [k [Hin Heq]].
      apply String.eqb_eq in Heq; subst k; contradiction.
Qed.

Section Whole.

Variable toLowerCase : string -> string.

Local Abbreviation handler := (getWeatherByCity toLowerCase).

(** The run of an accepted request, case by case. *)
Lemma handler_accepted e param name :
  lookup (toLowerCase param) = Some name ->
  handler e param =
    match CWA_API_KEY e with
    | None => mkRun [] (Sent misconfigured)
    | Some key =>
        if key =? "" then mkRun [] (Sent misconfigured)
        else
          match axios_get e (request key name) with
          | Fulfilled res =>
              match reshape name res with
              | Return r => mkRun [ Get (request key name) ] (Sent r)
              | Throw error =>
                  mkRun [ Get (request key name);
                          console_error ("取得 " ++ member_text name ++ " 天氣資料失敗:")
                                        (message error) ]
                        (Sent server_error)
              end
          | Rejected error =>
              mkRun [ Get (request key name);
                      console_error ("取得 " ++ member_text name ++ " 天氣資料失敗:")
                                    (message error) ]
                    (snd (catch_block name error))
          end
    end.
Proof.
  intros Hlookup; pose proof (lookup_truthy _ _ Hlookup) as Htruthy.
  destruct (CWA_API_KEY e) as [key | ] eqn:Hkey.
  - destruct (String.eqb_spec key "") as [-> | Hne].
    + apply (handler_without_key _ _ _ name); try assumption.
      rewrite Hkey; reflexivity.
    + destruct (axios_get e (request key name)) as [res | error] eqn:Hcall.
      * rewrite (handler_fulfilled _ _ _ name key res) by assumption.
        destruct (reshape name res) as [r | error] eqn:Hres; [reflexivity | ].
        rewrite (catch_block_local name error) by (eapply reshape_throws; eauto).
        reflexivity.
      * rewrite (handler_rejected _ _ _ name key error) by assumption.
        reflexivity.
  - apply (handler_without_key _ _ _ name); try assumption.
    rewrite Hkey; reflexivity.
Qed.

(** X1.  The handler answers with the invalid-city reply exactly when the
    lowercased identifier is neither a key of the table nor the name of a
    member inherited from [Object.prototype]. *)
Theorem invalid_city_exactly_when_lookup_fails e param :
  final (handler e param) = Sent (invalid_city param)
  <-> ~ In (toLowerCase param) (Object_keys CITY_NAME_MAPPING)
      /\ ~ In (toLowerCase param) Object_prototype.
Proof.
  rewrite <- lookup_None; split.
  - destruct (lookup (toLowerCase param)) as [name | ] eqn:Hlookup; [ | reflexivity].
    rewrite (handler_accepted _ _ _ Hlookup).
    destruct (CWA_API_KEY e) as [key | ]; [ | discriminate].
    destruct (key =? ""); [discriminate | ].
    destruct (axios_get e (request key name)) as [res | error].
    + destruct (reshape name res) as [r | error] eqn:Hres; [ | discriminate].
      apply reshape_returns in Hres as [-> | (c & u & fs & ->)]; discriminate.
    + unfold catch_block; cbn [snd final].
      destruct (response error) as [r | ]; [ | discriminate].
      destruct (get (data r) "message"); discriminate.
  - intros H; rewrite handler_rejects_unknown by assumption; reflexivity.
Qed.

(** A reply with code 200 after a fulfilled call is the success reply
    that [reshape] returned. *)
Lemma sent_success e param name key res r :
  lookup (toLowerCase param) = Some name ->
  CWA_API_KEY e = Some key -> key <> "" ->
  axios_get e (request key name) = Fulfilled res ->
  final (handler e param) = Sent r -> code r = 200%Z ->
  exists city updateTime forecasts,
    r = success city updateTime forecasts
    /\ reshape name res = Return (success city updateTime forecasts).
Proof.
  intros Hlookup Hkey Hne Hcall.
  rewrite (handler_accepted _ _ _ Hlookup), Hkey, Hcall.
  destruct (String.eqb_spec key ""); [contradiction | ].
  destruct (reshape name res) as [r' | error] eqn:Hres; cbn [final];
    intros H Hcode; inversion H; subst; [ | discriminate].
  apply reshape_returns in Hres as [-> | (c & u & fs & ->)]; [discriminate | ].
  exists c, u, fs; split; reflexivity.
Qed.

(** X2.  The effects of a run and its end, case by case.  A rejected
    identifier and a missing credential leave no trace and are answered
    with HTTP 400 and HTTP 500.  Otherwise the trace starts with the one
    request: the dataset's address, the credential as [Authorization],
    the looked-up name as [locationName].  Nothing follows it exactly
    when the call was fulfilled and the reshaping returned a reply, the
    success body or NoData, which is then sent.  When the reshaping
    threw or the call was rejected, one log line follows, naming the
    location and carrying the message of that error, and the run ends
    with the generic HTTP 500 (no response in the error), with the
    upstream's status and body (a response with a body) or with the
    handler's promise rejected (a response without one). *)
Theorem trace_shape e param :
  (lookup (toLowerCase param) = None
   /\ trace (handler e param) = []
   /\ exists r, final (handler e param) = Sent r
                /\ code r = 400%Z
                /\ get (json r) "error" = Return (VString "無效的城市 ID"))
  \/ (exists name,
        lookup (toLowerCase param) = Some name
        /\ key_truthy (CWA_API_KEY e) = false
        /\ trace (handler e param) = []
        /\ exists r, final (handler e param) = Sent r
                     /\ code r = 500%Z
                     /\ get (json r) "error" = Return (VString "伺服器設定錯誤"))
  \/ exists name key,
       let sent :=
         mkGet "https://opendata.cwa.gov.tw/api/v1/rest/datastore/F-C0032-001"
               key name in
       lookup (toLowerCase param) = Some name
       /\ CWA_API_KEY e = Some key /\ key <> ""
       /\ ((exists res r,
              axios_get e sent = Fulfilled res
              /\ reshape name res = Return r
              /\ trace (handler e param) = [ Get sent ]
              /\ final (handler e param) = Sent r
              /\ (code r = 200%Z /\ get (json r) "success" = Return (VBool true)
                  \/ code r = 404%Z
                     /\ get (json r) "error" = Return (VString "查無資料")))
           \/ exists error,
                (axios_get e sent = Rejected error
                 \/ exists res, axios_get e sent = Fulfilled res
                                /\ reshape name res = Throw error)
                /\ trace (handler e param)
                   = [ Get sent;
                       console_error ("取得 " ++ member_text name ++ " 天氣資料失敗:")
                                     (message error) ]
                /\ match response error with
                   | None =>
                       exists r, final (handler e param) = Sent r
                                 /\ code r = 500%Z
                                 /\ get (json r) "error"
                                    = Return (VString "伺服器錯誤")
                   | Some upstream =>
                       if nullish (data upstream)
                       then final (handler e param)
                            = Unhandled (cannot_read (data upstream) "message")
                       else exists r,
                              final (handler e param) = Sent r
                              /\ code r = status upstream
                              /\ get (json r) "error"
                                 = Return (VString "CWA API 錯誤")
                              /\ get (json r) "details" = Return (data upstream)
                   end).
Proof.
  destruct (lookup (toLowerCase param)) as [name | ] eqn:Hlookup.
  - right; rewrite (handler_accepted _ _ _ Hlookup).
    destruct (CWA_API_KEY e) as [key | ] eqn:Hkey;
      [ | left; exists name; repeat split; eexists; repeat split].
    destruct (String.eqb_spec key "") as [-> | Hne];
      [left; exists name; repeat split; eexists; repeat split | ].
    right; exists name, key; cbv zeta.
    change (mkGet "https://opendata.cwa.gov.tw/api/v1/rest/datastore/F-C0032-001"
                  key name) with (request key name).
    split; [reflexivity | ]. split; [reflexivity | ]. split; [exact Hne | ].
    destruct (axios_get e (request key name)) as [res | error].
    + destruct (reshape name res) as [r | error] eqn:Hres.
      * left; exists res, r.
        split; [reflexivity | ]. split; [exact Hres | ].
        split; [reflexivity | ]. split; [reflexivity | ].
        apply reshape_returns in Hres as [-> | (c & u & fs & ->)];
          [right | left]; split; reflexivity.
      * right; exists error; split; [right; exists res; split; [reflexivity | exact Hres] | ].
        split; [reflexivity | ].
        rewrite (reshape_throws _ _ _ Hres).
        eexists; repeat split.
    + right; exists error; split; [left; reflexivity | ].
      split; [reflexivity | ].
      unfold catch_block; cbn [snd final].
      destruct (response error) as [r | ]; [ | eexists; repeat split].
      destruct (nullish (data r)) eqn:Hbody.
      * rewrite (get_nullish _ _ Hbody); reflexivity.
      * rewrite (get_not_nullish _ _ Hbody); eexists; repeat split.
  - left; split; [reflexivity | ].
    rewrite handler_rejects_unknown by assumption.
    split; [reflexivity | eexists; repeat split].
Qed.

(** X3.  A fulfilled call is always answered: the reply is the success
    body, NoData, or the generic server error, with code 200, 404 or 500;
    whatever the payload looks like, nothing escapes the [try] block. *)
Theorem fulfilled_call_is_answered e param name key res :
  lookup (toLowerCase param) = Some name ->
  CWA_API_KEY e = Some key -> key <> "" ->
  axios_get e (request key name) = Fulfilled res ->
  exists r,
    final (handler e param) = Sent r
    /\ (r = server_error \/ r = no_data name
        \/ exists city updateTime forecasts, r = success city updateTime forecasts)
    /\ In (code r) [ 200; 404; 500 ]%Z.
Proof.
  intros Hlookup Hkey Hne Hcall.
  rewrite (handler_accepted _ _ _ Hlookup), Hkey, Hcall.
  destruct (String.eqb_spec key ""); [contradiction | ].
  destruct (reshape name res) as [r | error] eqn:Hres.
  - exists r; split; [reflexivity | ].
    apply reshape_returns in Hres as [-> | (c & u & fs & ->)]; split;
      eauto 6; simpl; tauto.
  - exists server_error; split; [reflexivity | ]. split; [auto | simpl; tauto].
Qed.

(** X4.  The promise of the handler is left rejected in one situation
    only: the upstream call was rejected with a response whose body is
    [null] or [undefined]. *)
Theorem unhandled_exactly_on_response_without_body e param :
  (exists thrown, final (handler e param) = Unhandled thrown)
  <-> exists name key error r,
        lookup (toLowerCase param) = Some name
        /\ CWA_API_KEY e = Some key /\ key <> ""
        /\ axios_get e (request key name) = Rejected error
        /\ response error = Some r
        /\ nullish (data r) = true.
Proof.
  split.
  - intros [thrown H].
    destruct (lookup (toLowerCase param)) as [name | ] eqn:Hlookup;
      [ | rewrite handler_rejects_unknown in H by assumption; discriminate].
    rewrite (handler_accepted _ _ _ Hlookup) in H.
    destruct (CWA_API_KEY e) as [key | ] eqn:Hkey; [ | discriminate].
    destruct (String.eqb_spec key "") as [-> | Hne]; [discriminate | ].
    destruct (axios_get e (request key name)) as [res | error] eqn:Hcall.
    + destruct (reshape name res); discriminate.
    + unfold catch_block in H; cbn [snd final] in H.
      destruct (response error) as [r | ] eqn:Hr; [ | discriminate].
      destruct (nullish (data r)) eqn:Hbody.
      * exists name, key, error, r; auto 7.
      * rewrite (get_not_nullish _ _ Hbody) in H; discriminate.
  - intros (name & key & error & r & Hlookup & Hkey & Hne & Hcall & Hr & Hbody).
    rewrite (handler_accepted _ _ _ Hlookup), Hkey, Hcall.
    destruct (String.eqb_spec key ""); [contradiction | ].
    unfold catch_block; cbn [snd final]; rewrite Hr, (get_nullish _ _ Hbody).
    eexists; reflexivity.
Qed.

(** X5.  After a fulfilled call the reply is NoData exactly when
    [records.location] can be indexed and its element 0 is missing or
    falsy: an empty array, but also an array that starts with [null], or
    an empty string in place of the array. *)
Theorem no_data_exactly_on_falsy_first_location e param name key res :
  lookup (toLowerCase param) = Some name ->
  CWA_API_KEY e = Some key -> key <> "" ->
  axios_get e (request key name) = Fulfilled res ->
  final (handler e param) = Sent (no_data name)
  <-> nullish (location_of (data res)) = false
      /\ truthy (located (data res)) = false.
Proof.
  intros Hlookup Hkey Hne Hcall.
  rewrite (handler_accepted _ _ _ Hlookup), Hkey, Hcall.
  destruct (String.eqb_spec key ""); [contradiction | ].
  rewrite <- (reshape_no_data name res).
  destruct (reshape name res) as [r | error] eqn:Hres; cbn [final].
  - split; intros H; inversion H; subst; reflexivity.
  - split; intros H; discriminate.
Qed.

(** X10.  The credential goes into the outbound request and nowhere
    else: two runs that differ in the credential they hold, and whose
    calls settle alike, end alike and log the same lines. *)
Theorem credential_stays_in_the_request e1 e2 param name key1 key2 :
  lookup (toLowerCase param) = Some name ->
  CWA_API_KEY e1 = Some key1 -> key1 <> "" ->
  CWA_API_KEY e2 = Some key2 -> key2 <> "" ->
  axios_get e1 (request key1 name) = axios_get e2 (request key2 name) ->
  final (handler e1 param) = final (handler e2 param)
  /\ logs (trace (handler e1 param)) = logs (trace (handler e2 param))
  /\ gets (trace (handler e1 param)) = [ request key1 name ]
  /\ gets (trace (handler e2 param)) = [ request key2 name ].
Proof.
  intros Hlookup Hk1 Hn1 Hk2 Hn2 Hcall.
  rewrite !(handler_accepted _ _ _ Hlookup), Hk1, Hk2, Hcall.
  destruct (String.eqb_spec key1 ""); [contradiction | ].
  destruct (String.eqb_spec key2 ""); [contradiction | ].
  destruct (axios_get e2 (request key2 name)) as [res | error].
  - destruct (reshape name res); repeat split.
  - repeat split.
Qed.

(** X11.  Every reply the handler sends is either the success body, with
    code 200, [success: true] and no [error] field, or an error envelope:
    an [error] field holding one of five fixed texts, a truthy [message],
    and no [success] field.  The status code alone does not tell them
    apart, since an upstream status is passed on as it came. *)
Theorem replies_are_success_or_envelope e param r :
  final (handler e param) = Sent r ->
  (code r = 200%Z
   /\ get (json r) "success" = Return (VBool true)
   /\ get (json r) "error" = Return VUndefined)
  \/ (exists text,
        get (json r) "error" = Return (VString text)
        /\ In text error_texts
        /\ truthy (get_opt (json r) "message") = true
        /\ get (json r) "success" = Return VUndefined).
Proof.
  assert (Henvelope : forall text m rest,
            In text error_texts -> truthy m = true ->
            own_property "success" rest = None ->
            forall c,
            exists text',
              get (json (mkReply c (VObject (("error", VString text)
                                             :: ("message", m) :: rest)))) "error"
              = Return (VString text')
              /\ In text' error_texts
              /\ truthy (get_opt (json (mkReply c (VObject (("error", VString text)
                                             :: ("message", m) :: rest)))) "message") = true
              /\ get (json (mkReply c (VObject (("error", VString text)
                                             :: ("message", m) :: rest)))) "success"
                 = Return VUndefined).
  { intros text m rest Hin Hm Hrest c; exists text.
    unfold get_opt; cbn; rewrite Hrest; auto. }
  destruct (lookup (toLowerCase param)) as [name | ] eqn:Hlookup.
  - rewrite (handler_accepted _ _ _ Hlookup).
    assert (Hmis : Sent misconfigured = Sent r ->
                   exists text,
                     get (json r) "error" = Return (VString text)
                     /\ In text error_texts
                     /\ truthy (get_opt (json r) "message") = true
                     /\ get (json r) "success" = Return VUndefined).
    { intros H; inversion H; subst.
      apply Henvelope; [simpl; tauto | reflexivity | reflexivity]. }
    destruct (CWA_API_KEY e) as [key | ]; [ | right; auto].
    destruct (key =? ""); [right; auto | ].
    destruct (axios_get e (request key name)) as [res | error].
    + destruct (reshape name res) as [r' | error] eqn:Hres; cbn [final];
        intros H; inversion H; subst.
      * apply reshape_returns in Hres as [-> | (c & u & fs & ->)].
        -- right; apply Henvelope; [simpl; tauto | reflexivity | reflexivity].
        -- left; repeat split.
      * right; apply Henvelope; [simpl; tauto | reflexivity | reflexivity].
    + unfold catch_block; cbn [snd final].
      destruct (response error) as [res | ].
      * destruct (get (data res) "message") as [m | ]; intros H; inversion H; subst.
        right; apply Henvelope; [simpl; tauto | | reflexivity].
        unfold or_else; destruct (truthy m) eqn:Hm; [exact Hm | reflexivity].
      * intros H; inversion H; subst.
        right; apply Henvelope; [simpl; tauto | reflexivity | reflexivity].
  - rewrite handler_rejects_unknown by assumption; cbn [final].
    intros H; inversion H; subst.
    right; apply Henvelope; [simpl; tauto | reflexivity | reflexivity].
Qed.

End Whole.

(* ================================================================== *)
(** ** Time arrays of unequal length *)
(* ================================================================== *)

(** An element whose [time] array ends before index [i] makes the visit
    for slot [i] throw (line 102). *)
Lemma callback_past_the_end i f element ts :
  get_opt element "time" = VArray ts ->
  (List.length ts <= i)%nat ->
  exists thrown, callback i f element = Throw thrown.
Proof.
  intros Htime Hlen; unfold callback.
  rewrite (get_opt_defined _ _ _ Htime) by discriminate.
  cbn [bind get_index]; rewrite nth_overflow by exact Hlen.
  eexists; reflexivity.
Qed.

Lemma forEach_throws_at i elements element :
  In element elements ->
  (forall f, exists thrown, callback i f element = Throw thrown) ->
  forall f, exists thrown, forEach i elements f = Throw thrown.
Proof.
  induction elements as [ | x rest IH]; intros Hin Hthrow f; [contradiction | ].
  cbn [forEach].
  destruct (callback i f x) as [f' | thrown] eqn:E; cbn [bind].
  - destruct Hin as [-> | Hin].
    + destruct (Hthrow f) as [thrown Ht]; congruence.
    + apply IH; assumption.
  - eexists; reflexivity.
Qed.

Lemma slot_throws_at i elements element :
  In element elements ->
  (forall f, exists thrown, callback i f element = Throw thrown) ->
  exists thrown, slot (VArray elements) i = Throw thrown.
Proof.
  intros Hin Hthrow; unfold slot.
  repeat match goal with
         | |- exists thrown, bind ?r _ = Throw thrown =>
             destruct r; cbn [bind]; [ | eexists; reflexivity]
         end.
  cbn [weatherElements_forEach]; eapply forEach_throws_at; eauto.
Qed.

Lemma for_loop_throws_at weatherElements i :
  (exists thrown, slot weatherElements i = Throw thrown) ->
  forall todo start forecasts,
    (start <= i < start + todo)%nat ->
    exists thrown, for_loop weatherElements todo start forecasts = Throw thrown.
Proof.
  intros [thrown Hthrow]; induction todo as [ | todo IH];
    intros start forecasts Hi; [lia | ].
  cbn [for_loop].
  destruct (slot weatherElements start) as [f | t] eqn:E; cbn [bind].
  - destruct (Nat.eq_dec start i) as [-> | Hne]; [congruence | ].
    apply IH; lia.
  - eexists; reflexivity.
Qed.

(* ================================================================== *)
(** ** The loop ends within reach of the first [time] *)
(* ================================================================== *)

Lemma decimal_injective a b : (0 <= a)%Z -> (0 <= b)%Z -> decimal a = decimal b -> a = b.
Proof.
  unfold decimal; intros Ha Hb H.
  assert (Hnil : forall n, N.to_uint n <> Decimal.Nil).
  { intros [ | p]; [discriminate | apply DecimalPos.Unsigned.to_uint_nonnil]. }
  pose proof (NilZero.usu _ (Hnil (Z.to_N a))) as Hu.
  rewrite H, (NilZero.usu _ (Hnil (Z.to_N b))) in Hu.
  inversion Hu as [Hd]; apply DecimalN.Unsigned.to_uint_inj in Hd; lia.
Qed.

Lemma string_of_nat_decimal i :
  (Z.of_nat i < two53)%Z -> string_of_nat i = decimal (Z.of_nat i).
Proof.
  intros Hi; unfold string_of_nat, Number_toString; cbv zeta.
  rewrite Z.abs_eq by lia.
  rewrite (proj2 (Z.ltb_ge (Z.of_nat i) 0)) by lia.
  rewrite (proj2 (Z.ltb_lt (Z.of_nat i) two53)) by exact Hi.
  reflexivity.
Qed.

Lemma string_of_nat_injective i j :
  (Z.of_nat i < two53)%Z -> (Z.of_nat j < two53)%Z ->
  string_of_nat i = string_of_nat j -> i = j.
Proof.
  intros Hi Hj; rewrite !string_of_nat_decimal by assumption; intros H.
  apply decimal_injective in H; lia.
Qed.

Lemma own_property_None k props :
  ~ In k (map fst props) -> own_property k props = None.
Proof.
  induction props as [ | [k' v] rest IH]; cbn [own_property map fst In];
    intros H; [reflexivity | ].
  destruct (String.eqb_spec k' k) as [-> | _]; [tauto | apply IH; tauto].
Qed.

Lemma NoDup_map_in {A B : Type} (f : A -> B) (l : list A) :
  (forall x y, In x l -> In y l -> f x = f y -> x = y) ->
  NoDup l -> NoDup (map f l).
Proof.
  induction l as [ | a rest IH]; intros Hinj Hnodup; cbn [map];
    [constructor | ].
  inversion Hnodup as [ | ? ? Hnot Hrest]; subst; constructor.
  - intros Hin; apply in_map_iff in Hin as (x & Hfx & Hx).
    apply Hnot; rewrite <- (Hinj x a); [exact Hx | right; exact Hx | left; reflexivity | exact Hfx].
  - apply IH; [ | exact Hrest].
    intros x y Hx Hy; apply Hinj; right; assumption.
Qed.

(** More indices than an object has properties name one that it lacks. *)
Lemma key_not_held props :
  (Z.of_nat (List.length props) < two53)%Z ->
  exists i, (i <= List.length props)%nat
            /\ own_property (string_of_nat i) props = None.
Proof.
  intros Hsmall.
  set (keys := map fst props).
  set (indices := map string_of_nat (seq 0 (S (List.length props)))).
  destruct (Forall_Exists_dec (fun k => In k keys)
              (fun k => in_dec string_dec k keys) indices) as [Hall | Hsome].
  - exfalso.
    assert (Hnodup : NoDup indices).
    { unfold indices; apply NoDup_map_in; [ | apply seq_NoDup].
      intros i j Hi Hj; apply in_seq in Hi, Hj.
      apply string_of_nat_injective; lia. }
    assert (Hincl : incl indices keys)
      by (intros k Hk; exact (proj1 (Forall_forall _ _) Hall k Hk)).
    pose proof (NoDup_incl_length Hnodup Hincl) as Hlen.
    unfold indices, keys in Hlen; rewrite !length_map, length_seq in Hlen; lia.
  - apply Exists_exists in Hsome as (k & Hk & Hnot).
    unfold indices in Hk; apply in_map_iff in Hk as (i & <- & Hi).
    apply in_seq in Hi; exists i; split; [lia | ].
    apply own_property_None; exact Hnot.
Qed.

(** No value holds all of the indices up to its [reach]. *)
Lemma index_not_held time :
  (Z.of_nat (reach time) < two53)%Z ->
  exists i, (i <= reach time)%nat
            /\ (get_index time i = Return VUndefined
                \/ exists thrown, get_index time i = Throw thrown).
Proof.
  intros Hsmall; destruct time as [ | | b | z | s | items | props].
  - exists O; split; [apply Nat.le_0_l | right; eexists; reflexivity].
  - exists O; split; [apply Nat.le_0_l | right; eexists; reflexivity].
  - exists O; split; [apply Nat.le_0_l | left; reflexivity].
  - exists O; split; [apply Nat.le_0_l | left; reflexivity].
  - exists (text_length s); split; [apply Nat.le_refl | left].
    unfold get_index, char_at, text_length.
    rewrite (proj2 (nth_error_None _ _)) by apply Nat.le_refl; reflexivity.
  - exists (List.length items); split; [apply Nat.le_refl | left].
    unfold get_index; rewrite nth_overflow by apply Nat.le_refl; reflexivity.
  - destruct (key_not_held props Hsmall) as (i & Hi & Hnone).
    exists i; split; [exact Hi | left].
    unfold get_index; rewrite Hnone; reflexivity.
Qed.

Lemma slot_not_held weatherElements first time i :
  get_index weatherElements 0 = Return first ->
  get first "time" = Return time ->
  get_index time i = Return VUndefined
  \/ (exists thrown, get_index time i = Throw thrown) ->
  exists thrown, slot weatherElements i = Throw thrown.
Proof.
  intros Hfirst Htime [Hentry | [thrown Hentry]];
    unfold slot; rewrite Hfirst; cbn [bind]; rewrite Htime; cbn [bind];
    rewrite Hentry; cbn [bind get]; eexists; reflexivity.
Qed.

Lemma for_loop_throws_longer weatherElements thrown todo :
  forall start forecasts,
    for_loop weatherElements todo start forecasts = Throw thrown ->
    forall more,
      for_loop weatherElements (todo + more) start forecasts = Throw thrown.
Proof.
  induction todo as [ | todo IH]; intros start forecasts H more;
    [discriminate | ].
  cbn [for_loop Nat.add] in *.
  destruct (slot weatherElements start) as [f | t]; cbn [bind] in *;
    [apply IH; exact H | exact H].
Qed.

(** The loop of lines 89-126 run for as many passes as its test admits
    is the loop run for the passes [within] reach: that many passes end
    in a throw when there are more to come.  (Past 2^53 a counter no
    longer names an index by its digits.) *)
Lemma loop_ends_within_reach weatherElements first time count todo :
  get_index weatherElements 0 = Return first ->
  get first "time" = Return time ->
  (Z.of_nat (reach time) < two53)%Z ->
  match count with
  | Some k => todo = Z.to_nat k
  | None => (reach time < todo)%nat
  end ->
  for_loop weatherElements todo 0 []
  = for_loop weatherElements (within time count) 0 [].
Proof.
  intros Hfirst Htime Hsmall Htodo.
  destruct (Nat.le_gt_cases todo (S (reach time))) as [Hle | Hgt].
  - destruct count as [k | ]; unfold within; f_equal; lia.
  - assert (Hwithin : within time count = S (reach time)).
    { destruct count as [k | ]; unfold within; [lia | reflexivity]. }
    rewrite Hwithin.
    destruct (index_not_held time Hsmall) as (i & Hi & Hentry).
    destruct (for_loop_throws_at weatherElements i
                (slot_not_held _ _ _ _ Hfirst Htime Hentry)
                (S (reach time)) O []) as [thrown Hthrow]; [lia | ].
    rewrite Hthrow.
    replace todo with (S (reach time) + (todo - S (reach time)))%nat by lia.
    apply for_loop_throws_longer; exact Hthrow.
Qed.

(** The reads of lines 70-87 on a payload whose first location carries a
    non-empty array of elements, the first with a [time] array. *)
Lemma reshape_reaches_loop name res loc others first rest ts0 :
  location_of (data res) = VArray (loc :: others) ->
  truthy loc = true ->
  get_opt loc "weatherElement" = VArray (first :: rest) ->
  get_opt first "time" = VArray ts0 ->
  reshape name res =
    let* forecasts := for_loop (VArray (first :: rest)) (List.length ts0) 0 [] in
    Return (success (get_opt loc "locationName")
                    (get_opt (get_opt (data res) "records") "datasetDescription")
                    forecasts).
Proof.
  intros Hloc Htruthy Hels Htime.
  assert (Hnn : nullish (location_of (data res)) = false) by (rewrite Hloc; reflexivity).
  destruct (located_reads _ Hnn) as (H1 & H2 & H3).
  unfold located in H3; rewrite Hloc in H2, H3; cbn [index_opt get_index nth] in H3.
  unfold reshape.
  rewrite H1; cbn [bind]; rewrite H2; cbn [bind get_index nth].
  rewrite Htruthy; cbn [negb].
  rewrite (get_not_nullish loc "locationName") by (apply truthy_not_nullish; assumption).
  cbn [bind].
  rewrite (get_not_nullish (get_opt (data res) "records") "datasetDescription")
    by (eapply get_returns_not_nullish; eauto).
  cbn [bind].
  rewrite (get_opt_defined _ _ _ Hels) by discriminate.
  cbn [bind get_index nth].
  rewrite (get_opt_defined _ _ _ Htime) by discriminate.
  cbn [bind get].
  change ("length" =? "length") with true; cbv iota.
  rewrite iterations_length; cbn [bind]; rewrite within_length; reflexivity.
Qed.

(* ================================================================== *)
(** ** Elements that can be read at the indices the loop visits *)
(* ================================================================== *)






(* ================================================================== *)
(** ** What a success reply holds *)
(* ================================================================== *)

Lemma map_forecast_object_injective fs :
  forall gs, map forecast_object fs = map forecast_object gs -> fs = gs.
Proof.
  induction fs as [ | f fs IH]; intros [ | g gs]; cbn [map]; intros H;
    try discriminate; [reflexivity | ].
  injection H; intros.
  f_equal; [destruct f, g; cbn in *; congruence | apply IH; assumption].
Qed.

Lemma success_injective c u fs c' u' fs' :
  success c u fs = success c' u' fs' -> c = c' /\ u = u' /\ fs = fs'.
Proof.
  unfold success; intros H; injection H as Hc Hu Hfs.
  repeat split; try assumption; apply map_forecast_object_injective; exact Hfs.
Qed.

(** The loop, when it returns, has pushed one slot per pass, in order. *)
Lemma for_loop_returns weatherElements todo :
  forall start forecasts result,
    for_loop weatherElements todo start forecasts = Return result ->
    exists slots,
      result = (forecasts ++ slots)%list
      /\ List.length slots = todo
      /\ forall k f, nth_error slots k = Some f ->
                     slot weatherElements (start + k) = Return f.
Proof.
  induction todo as [ | todo IH]; intros start forecasts result; cbn [for_loop].
  - intros H; inversion H; subst; exists []; rewrite app_nil_r.
    repeat split; intros [ | k] f; discriminate.
  - destruct (slot weatherElements start) as [f0 | ] eqn:E; [cbn [bind] | discriminate].
    intros H; apply IH in H as (slots & -> & Hlen & Hslots).
    exists (f0 :: slots); rewrite <- app_assoc; cbn [app List.length].
    repeat split; [congruence | ].
    intros [ | k] f Hnth; cbn [nth_error] in Hnth.
    + inversion Hnth; subst; rewrite Nat.add_0_r; exact E.
    + replace (start + S k)%nat with (S start + k)%nat by lia.
      apply Hslots; exact Hnth.
Qed.

(** The times of a slot are those found at its index in the first
    element's [time]. *)
Lemma slot_times elements i f :
  slot (VArray elements) i = Return f ->
  startTime f
  = get_opt (index_opt (get_opt (index_opt (VArray elements) 0) "time") i) "startTime"
  /\ endTime f
     = get_opt (index_opt (get_opt (index_opt (VArray elements) 0) "time") i) "endTime".
Proof.
  unfold slot; cbn [index_opt get_index bind].
  destruct (get (nth 0 elements VUndefined) "time") as [time | ] eqn:E1;
    [ | discriminate].
  rewrite (get_returns _ _ _ E1); cbn [bind].
  destruct (get_index time i) as [t | ] eqn:E2; [ | discriminate].
  rewrite (get_index_returns _ _ _ E2); cbn [bind].
  destruct (get t "startTime") as [start | ] eqn:E3; [ | discriminate].
  rewrite (get_returns _ _ _ E3); cbn [bind].
  destruct (get t "endTime") as [finish | ] eqn:E4; [ | discriminate].
  rewrite (get_returns _ _ _ E4); cbn [bind weatherElements_forEach].
  intros H; apply forEach_fields in H as (H1 & H2 & _); split; assumption.
Qed.

(** What [reshape] has read when it returns a success reply. *)
Lemma reshape_success name res city updateTime forecasts :
  reshape name res = Return (success city updateTime forecasts) ->
  city = get_opt (located (data res)) "locationName"
  /\ updateTime = get_opt (get_opt (data res) "records") "datasetDescription"
  /\ exists count,
       iterations (get_opt (first_time (data res)) "length") = Return count
       /\ for_loop (get_opt (located (data res)) "weatherElement")
            (within (first_time (data res)) count) 0 []
          = Return forecasts.
Proof.
  unfold reshape, first_time, located, location_of; intros H.
  destruct (get (data res) "records") as [records | ] eqn:E1; [ | discriminate].
  rewrite (get_returns _ _ _ E1); cbn [bind] in H.
  destruct (get records "location") as [location | ] eqn:E2; [ | discriminate].
  rewrite (get_returns _ _ _ E2); cbn [bind] in H.
  destruct (get_index location 0) as [loc | ] eqn:E3; [ | discriminate].
  rewrite (get_index_returns _ _ _ E3); cbn [bind] in H.
  destruct (negb (truthy loc)); [discriminate | ].
  destruct (get loc "locationName") as [c | ] eqn:E4; [ | discriminate].
  rewrite (get_returns _ _ _ E4); cbn [bind] in H.
  destruct (get records "datasetDescription") as [u | ] eqn:E5; [ | discriminate].
  rewrite (get_returns _ _ _ E5); cbn [bind] in H.
  destruct (get loc "weatherElement") as [we | ] eqn:E6; [ | discriminate].
  rewrite (get_returns _ _ _ E6); cbn [bind] in H.
  destruct (get_index we 0) as [first | ] eqn:E7; [ | discriminate].
  rewrite (get_index_returns _ _ _ E7); cbn [bind] in H.
  destruct (get first "time") as [time | ] eqn:E8; [ | discriminate].
  rewrite (get_returns _ _ _ E8); cbn [bind] in H.
  destruct (get time "length") as [count | ] eqn:E9; [ | discriminate].
  rewrite (get_returns _ _ _ E9); cbn [bind] in H.
  destruct (iterations count) as [todo | ] eqn:E10; [ | discriminate].
  cbn [bind] in H.
  destruct (for_loop we (within time todo) 0 []) as [fs | ] eqn:E11;
    [ | discriminate].
  cbn [bind] in H.
  assert (Hs : success c u fs = success city updateTime forecasts) by congruence.
  apply success_injective in Hs as (-> & -> & ->).
  repeat split; exists todo; split; [reflexivity | exact E11].
Qed.

(** A visit to a [PoP] element leaves in [rain] a text that ends with a
    percent sign. *)
Lemma callback_rain i f element f' :
  callback i f element = Return f' ->
  tagged "PoP" element = true ->
  exists s, rain f' = VString (s ++ "%").
Proof.
  unfold callback, tagged.
  destruct (get element "time") as [time | ]; [cbn [bind] | discriminate].
  destruct (get_index time i) as [t | ]; [cbn [bind] | discriminate].
  destruct (get t "parameter") as [val | ]; [cbn [bind] | discriminate].
  destruct (get element "elementName") as [tagv | ] eqn:Etag; [cbn [bind] | discriminate].
  rewrite (get_returns _ _ _ Etag).
  destruct tagv as [ | | | | tag | | ]; try discriminate.
  intros H Htag; apply String.eqb_eq in Htag; subst tag.
  unfold switch in H; cbn [String.eqb Ascii.eqb Bool.eqb andb] in H.
  change ("PoP" =? "Wx") with false in H; change ("PoP" =? "PoP") with true in H.
  cbv iota in H.
  destruct (get val "parameterName") as [p | ]; [cbn [bind] in H | discriminate].
  unfold add_string in H.
  destruct (to_string p) as [s | ]; [cbn [bind] in H | discriminate].
  inversion H; subst; exists s; reflexivity.
Qed.

Lemma forEach_rain i elements :
  forall f f',
    forEach i elements f = Return f' ->
    existsb (tagged "PoP") elements = true
    \/ (exists s, rain f = VString (s ++ "%")) ->
    exists s, rain f' = VString (s ++ "%").
Proof.
  induction elements as [ | element rest IH]; intros f f'; cbn [forEach existsb].
  - intros H [Hex | Hs]; [discriminate | inversion H; subst; exact Hs].
  - destruct (callback i f element) as [f1 | ] eqn:E; [cbn [bind] | discriminate].
    intros H Hcase; apply (IH _ _ H).
    destruct (tagged "PoP" element) eqn:Htag.
    + right; eapply callback_rain; eauto.
    + destruct Hcase as [Hex | [s Hs]]; [left; exact Hex | right].
      apply callback_fields in E as (_ & _ & _ & Hrain & _).
      exists s; rewrite Hrain by exact Htag; exact Hs.
Qed.

Lemma last_tagged_None tag elements :
  last_tagged tag elements = None -> existsb (tagged tag) elements = false.
Proof.
  induction elements as [ | x rest IH]; cbn [last_tagged existsb]; [reflexivity | ].
  destruct (last_tagged tag rest); [discriminate | ].
  destruct (tagged tag x); [discriminate | ].
  intros _; apply IH; reflexivity.
Qed.

(** What a visit writes: the field of the element's tag receives the
    element's [parameterName] at the slot's index as it is, and [rain]
    receives its text followed by a percent sign. *)
Lemma callback_tagged i f element f' :
  callback i f element = Return f' ->
  (tagged "Wx" element = true -> weather f' = parameterName_at element i)
  /\ (tagged "PoP" element = true ->
      exists s, to_string (parameterName_at element i) = Return s
                /\ rain f' = VString (s ++ "%"))
  /\ (tagged "MinT" element = true -> minTemp f' = parameterName_at element i)
  /\ (tagged "MaxT" element = true -> maxTemp f' = parameterName_at element i)
  /\ (tagged "CI" element = true -> comfort f' = parameterName_at element i)
  /\ (tagged "WS" element = true -> windSpeed f' = parameterName_at element i).
Proof.
  unfold callback, tagged, parameterName_at.
  destruct (get element "time") as [time | ] eqn:E1; [cbn [bind] | discriminate].
  rewrite (get_returns _ _ _ E1).
  destruct (get_index time i) as [t | ] eqn:E2; [cbn [bind] | discriminate].
  rewrite (get_index_returns _ _ _ E2).
  destruct (get t "parameter") as [val | ] eqn:E3; [cbn [bind] | discriminate].
  rewrite (get_returns _ _ _ E3).
  destruct (get element "elementName") as [tagv | ] eqn:E4; [cbn [bind] | discriminate].
  rewrite (get_returns _ _ _ E4).
  destruct tagv as [ | | | | tag | | ];
    try (intros _; repeat split; discriminate).
  unfold switch.
  repeat match goal with
         | |- context [ if tag =? ?known then _ else _ ] =>
             destruct (String.eqb_spec tag known) as [-> | ];
             [ destruct (get val "parameterName") as [p | ] eqn:E5;
               [ cbn [bind]; rewrite (get_returns _ _ _ E5) | discriminate ];
               try (unfold add_string;
                    destruct (to_string p) as [s | ] eqn:E6;
                    [ cbn [bind] | discriminate ]);
               intros H; inversion H; subst; cbn;
               repeat split; intros Htag; try discriminate Htag;
               try reflexivity; eexists; split; reflexivity
             | ]
         end.
  intros _; repeat split; intros Htag; discriminate Htag.
Qed.

(** After [forEach], every field whose tag occurs among the elements
    holds what the last element with that tag wrote. *)
Lemma forEach_last i elements :
  forall f f',
    forEach i elements f = Return f' ->
    (forall element, last_tagged "Wx" elements = Some element ->
                     weather f' = parameterName_at element i)
    /\ (forall element, last_tagged "PoP" elements = Some element ->
                        exists s, to_string (parameterName_at element i) = Return s
                                  /\ rain f' = VString (s ++ "%"))
    /\ (forall element, last_tagged "MinT" elements = Some element ->
                        minTemp f' = parameterName_at element i)
    /\ (forall element, last_tagged "MaxT" elements = Some element ->
                        maxTemp f' = parameterName_at element i)
    /\ (forall element, last_tagged "CI" elements = Some element ->
                        comfort f' = parameterName_at element i)
    /\ (forall element, last_tagged "WS" elements = Some element ->
                        windSpeed f' = parameterName_at element i).
Proof.
  induction elements as [ | x rest IH]; intros f f'; cbn [forEach last_tagged].
  - intros _; repeat split; discriminate.
  - destruct (callback i f x) as [f1 | ] eqn:E; [cbn [bind] | discriminate].
    intros H.
    destruct (IH _ _ H) as (I1 & I2 & I3 & I4 & I5 & I6).
    destruct (callback_tagged _ _ _ _ E) as (T1 & T2 & T3 & T4 & T5 & T6).
    destruct (forEach_fields _ _ _ _ H) as (_ & _ & F1 & F2 & F3 & F4 & F5 & F6).
    repeat split; intros element;
      match goal with
      | |- match last_tagged ?tag rest with _ => _ end = _ -> _ =>
          destruct (last_tagged tag rest) as [found | ] eqn:Elast;
          [ intros Heq; inversion Heq; subst; auto
          | apply last_tagged_None in Elast;
            destruct (tagged tag x) eqn:Etag; [ | discriminate];
            intros Heq; inversion Heq; subst ]
      end.
    + rewrite F1 by assumption; auto.
    + destruct (T2 eq_refl) as (s & Hs & Hr).
      exists s; split; [exact Hs | rewrite F2 by assumption; exact Hr].
    + rewrite F3 by assumption; auto.
    + rewrite F4 by assumption; auto.
    + rewrite F5 by assumption; auto.
    + rewrite F6 by assumption; auto.
Qed.

(** Among the elements with a known tag the last one carrying a given
    known tag is the same as among all elements. *)
Lemma last_tagged_known tag elements :
  In tag known_tags ->
  last_tagged tag (filter known elements) = last_tagged tag elements.
Proof.
  intros Htag; induction elements as [ | element rest IH]; [reflexivity | ].
  cbn [filter last_tagged]; destruct (known element) eqn:Hknown.
  - cbn [last_tagged]; rewrite IH; reflexivity.
  - rewrite IH, (known_false _ _ Hknown Htag).
    destruct (last_tagged tag rest); reflexivity.
Qed.

Section Shapes.

Variable toLowerCase : string -> string.

Local Abbreviation handler := (getWeatherByCity toLowerCase).

(** X6.  The slot count comes from the first element alone: when another
    element of the array has fewer [time] entries than the first one, the
    visit past its end throws and the reply is the generic HTTP 500, not
    a shorter or partly filled forecast. *)
Theorem shorter_time_array_answers_500 e param name key res
    loc others first rest ts0 element ts :
  lookup (toLowerCase param) = Some name ->
  CWA_API_KEY e = Some key -> key <> "" ->
  axios_get e (request key name) = Fulfilled res ->
  location_of (data res) = VArray (loc :: others) ->
  truthy loc = true ->
  get_opt loc "weatherElement" = VArray (first :: rest) ->
  get_opt first "time" = VArray ts0 ->
  In element (first :: rest) ->
  get_opt element "time" = VArray ts ->
  (List.length ts < List.length ts0)%nat ->
  final (handler e param) = Sent server_error.
Proof.
  intros Hlookup Hkey Hne Hcall Hloc Htruthy Hels Htime Hin Hts Hlen.
  rewrite (handler_accepted _ _ _ _ Hlookup), Hkey, Hcall.
  destruct (String.eqb_spec key ""); [contradiction | ].
  rewrite (reshape_reaches_loop name res loc others first rest ts0) by assumption.
  destruct (for_loop_throws_at (VArray (first :: rest)) (List.length ts))
    with (todo := List.length ts0) (start := O) (forecasts := @nil forecast)
    as [thrown ->]; [ | lia | reflexivity].
  apply (slot_throws_at _ _ element); [exact Hin | ].
  intros f; apply (callback_past_the_end _ _ _ ts); [exact Hts | lia].
Qed.


(** X8.  Whatever the payload, a success reply holds the upstream's
    [locationName] and [datasetDescription], and when the first element's
    [time] is an array it holds exactly one slot per entry of that array,
    in order, each with the [startTime] and [endTime] of its entry. *)
Theorem success_reply_contents e param name key res city updateTime forecasts :
  lookup (toLowerCase param) = Some name ->
  CWA_API_KEY e = Some key -> key <> "" ->
  axios_get e (request key name) = Fulfilled res ->
  final (handler e param) = Sent (success city updateTime forecasts) ->
  city = get_opt (located (data res)) "locationName"
  /\ updateTime = get_opt (get_opt (data res) "records") "datasetDescription"
  /\ forall ts,
       first_time (data res) = VArray ts ->
       List.length forecasts = List.length ts
       /\ forall i f,
            nth_error forecasts i = Some f ->
            startTime f = get_opt (nth i ts VUndefined) "startTime"
            /\ endTime f = get_opt (nth i ts VUndefined) "endTime".
Proof.
  intros Hlookup Hkey Hne Hcall.
  rewrite (handler_accepted _ _ _ _ Hlookup), Hkey, Hcall.
  destruct (String.eqb_spec key ""); [contradiction | ].
  destruct (reshape name res) as [r | error] eqn:Hres; cbn [final];
    [ | discriminate].
  intros H; assert (r = success city updateTime forecasts) by congruence; subst r.
  apply reshape_success in Hres as (Hc & Hu & todo & Hcount & Hloop).
  split; [exact Hc | ]. split; [exact Hu | ].
  intros ts Hts.
  rewrite Hts in Hcount, Hloop; cbn [get_opt get] in Hcount.
  change ("length" =? "length") with true in Hcount; cbv iota in Hcount.
  rewrite iterations_length in Hcount; inversion Hcount; subst todo.
  rewrite within_length in Hloop.
  apply for_loop_returns in Hloop as (slots & -> & Hlen & Hslots).
  cbn [app]; split; [exact Hlen | ].
  intros i f Hnth.
  pose proof (Hslots _ _ Hnth) as Hslot; cbn [Nat.add] in Hslot.
  unfold first_time in Hts.
  destruct (get_opt (located (data res)) "weatherElement")
    as [ | | | | | elements | ] eqn:Hwe;
    try (unfold slot, weatherElements_forEach in Hslot;
         unfold bind in Hslot; cbv beta iota in Hslot;
         repeat match type of Hslot with
                | match ?x with _ => _ end = Return _ =>
                    destruct x; [cbv beta iota in Hslot | discriminate Hslot]
                end;
         discriminate Hslot).
  apply slot_times in Hslot; rewrite Hts in Hslot; exact Hslot.
Qed.

(** A slot of a success reply is what [forEach] made of the initial
    slot at that index. *)
Lemma success_slot e param name key res r elements items i item :
  lookup (toLowerCase param) = Some name ->
  CWA_API_KEY e = Some key -> key <> "" ->
  axios_get e (request key name) = Fulfilled res ->
  final (handler e param) = Sent r -> code r = 200%Z ->
  get_opt (located (data res)) "weatherElement" = VArray elements ->
  get_opt (get_opt (json r) "data") "forecasts" = VArray items ->
  nth_error items i = Some item ->
  exists f start finish,
    item = forecast_object f
    /\ forEach i elements
         (mkForecast start finish (VString "") (VString "") (VString "")
                     (VString "") (VString "") (VString "")) = Return f.
Proof.
  intros Hlookup Hkey Hne Hcall Hsent Hcode Hwe Hitems Hnth.
  destruct (sent_success _ _ _ _ _ _ _ Hlookup Hkey Hne Hcall Hsent Hcode)
    as (city & updateTime & forecasts & -> & Hres).
  rewrite success_forecasts in Hitems; inversion Hitems; subst items.
  rewrite nth_error_map in Hnth.
  destruct (nth_error forecasts i) as [f | ] eqn:Hf; [ | discriminate].
  cbn [option_map] in Hnth; inversion Hnth; subst item.
  apply reshape_success in Hres as (_ & _ & count & _ & Hloop).
  rewrite Hwe in Hloop.
  apply for_loop_returns in Hloop as (slots & -> & _ & Hslots).
  cbn [app] in Hf; apply Hslots in Hf; cbn [Nat.add] in Hf.
  apply slot_forEach in Hf as (start & finish & Hfor).
  exists f, start, finish; split; [reflexivity | exact Hfor].
Qed.

(** X9.  In a success reply the [rain] of every slot of [data.forecasts]
    is a string: empty when the array of elements holds no [PoP] element,
    and text ending with a percent sign when it holds one, also when the
    upstream's [parameterName] is no string (a missing one gives
    [undefined%]). *)
Theorem rain_is_empty_or_percent e param name key res r elements items item :
  lookup (toLowerCase param) = Some name ->
  CWA_API_KEY e = Some key -> key <> "" ->
  axios_get e (request key name) = Fulfilled res ->
  final (handler e param) = Sent r -> code r = 200%Z ->
  get_opt (located (data res)) "weatherElement" = VArray elements ->
  get_opt (get_opt (json r) "data") "forecasts" = VArray items ->
  In item items ->
  (existsb (tagged "PoP") elements = false ->
   get item "rain" = Return (VString ""))
  /\ (existsb (tagged "PoP") elements = true ->
      exists s, get item "rain" = Return (VString (s ++ "%"))).
Proof.
  intros Hlookup Hkey Hne Hcall Hsent Hcode Hwe Hitems Hin.
  apply In_nth_error in Hin as [i Hnth].
  destruct (success_slot _ _ _ _ _ _ _ _ _ _ Hlookup Hkey Hne Hcall Hsent Hcode
              Hwe Hitems Hnth) as (f & start & finish & -> & Hfor).
  destruct (item_reads f) as (_ & _ & _ & -> & _).
  split; intros Hpop.
  - apply forEach_fields in Hfor as (_ & _ & _ & Hrain & _).
    rewrite Hrain by exact Hpop; reflexivity.
  - destruct (forEach_rain _ _ _ _ Hfor (or_introl Hpop)) as [s Hs].
    exists s; rewrite Hs; reflexivity.
Qed.

(** X12.  In a success reply, whatever the payload, a field of a slot of
    [data.forecasts] whose tag occurs among the elements holds the
    [parameterName] that the last element with that tag carries at the
    slot's index, as the upstream sent it (a number stays a number);
    [rain] holds its text, as [String] writes it, followed by a percent
    sign.  Of two elements with the same tag the later one decides. *)
Theorem fields_come_from_the_last_tagged_element e param name key res r
    elements items i item :
  lookup (toLowerCase param) = Some name ->
  CWA_API_KEY e = Some key -> key <> "" ->
  axios_get e (request key name) = Fulfilled res ->
  final (handler e param) = Sent r -> code r = 200%Z ->
  get_opt (located (data res)) "weatherElement" = VArray elements ->
  get_opt (get_opt (json r) "data") "forecasts" = VArray items ->
  nth_error items i = Some item ->
  (forall element, last_tagged "Wx" elements = Some element ->
                   get item "weather" = Return (parameterName_at element i))
  /\ (forall element, last_tagged "PoP" elements = Some element ->
                      exists s, to_string (parameterName_at element i) = Return s
                                /\ get item "rain" = Return (VString (s ++ "%")))
  /\ (forall element, last_tagged "MinT" elements = Some element ->
                      get item "minTemp" = Return (parameterName_at element i))
  /\ (forall element, last_tagged "MaxT" elements = Some element ->
                      get item "maxTemp" = Return (parameterName_at element i))
  /\ (forall element, last_tagged "CI" elements = Some element ->
                      get item "comfort" = Return (parameterName_at element i))
  /\ (forall element, last_tagged "WS" elements = Some element ->
                      get item "windSpeed" = Return (parameterName_at element i)).
Proof.
  intros Hlookup Hkey Hne Hcall Hsent Hcode Hwe Hitems Hnth.
  destruct (success_slot _ _ _ _ _ _ _ _ _ _ Hlookup Hkey Hne Hcall Hsent Hcode
              Hwe Hitems Hnth) as (f & start & finish & -> & Hfor).
  destruct (item_reads f) as (_ & _ & -> & -> & -> & -> & -> & ->).
  destruct (forEach_last _ _ _ _ Hfor) as (H1 & H2 & H3 & H4 & H5 & H6).
  repeat split; intros element Hlast;
    try (f_equal; auto; fail).
  destruct (H2 _ Hlast) as (s & Hs & Hrain).
  exists s; split; [exact Hs | rewrite Hrain; reflexivity].
Qed.

(** C7, as amended.  In a success reply the elements whose tag is none
    of [Wx], [PoP], [MinT], [MaxT], [CI], [WS] have contributed nothing
    to the six fields of any slot of [data.forecasts]: a field whose tag
    no element of the array carries is the empty string, and any other
    holds what the elements of known tag alone decide, the
    [parameterName] at the slot's index of the last of them with the
    field's tag ([rain]: its text followed by a percent sign). *)
Theorem C7_unknown_tags_contribute_nothing e param name key res r
    elements items i item :
  lookup (toLowerCase param) = Some name ->
  CWA_API_KEY e = Some key -> key <> "" ->
  axios_get e (request key name) = Fulfilled res ->
  final (handler e param) = Sent r -> code r = 200%Z ->
  get_opt (located (data res)) "weatherElement" = VArray elements ->
  get_opt (get_opt (json r) "data") "forecasts" = VArray items ->
  nth_error items i = Some item ->
  ((existsb (tagged "Wx") elements = false ->
    get item "weather" = Return (VString ""))
   /\ (existsb (tagged "PoP") elements = false ->
       get item "rain" = Return (VString ""))
   /\ (existsb (tagged "MinT") elements = false ->
       get item "minTemp" = Return (VString ""))
   /\ (existsb (tagged "MaxT") elements = false ->
       get item "maxTemp" = Return (VString ""))
   /\ (existsb (tagged "CI") elements = false ->
       get item "comfort" = Return (VString ""))
   /\ (existsb (tagged "WS") elements = false ->
       get item "windSpeed" = Return (VString "")))
  /\ ((forall element, last_tagged "Wx" (filter known elements) = Some element ->
                       get item "weather" = Return (parameterName_at element i))
      /\ (forall element, last_tagged "PoP" (filter known elements) = Some element ->
                          exists s, to_string (parameterName_at element i) = Return s
                                    /\ get item "rain" = Return (VString (s ++ "%")))
      /\ (forall element, last_tagged "MinT" (filter known elements) = Some element ->
                          get item "minTemp" = Return (parameterName_at element i))
      /\ (forall element, last_tagged "MaxT" (filter known elements) = Some element ->
                          get item "maxTemp" = Return (parameterName_at element i))
      /\ (forall element, last_tagged "CI" (filter known elements) = Some element ->
                          get item "comfort" = Return (parameterName_at element i))
      /\ (forall element, last_tagged "WS" (filter known elements) = Some element ->
                          get item "windSpeed" = Return (parameterName_at element i))).
Proof.
  intros Hlookup Hkey Hne Hcall Hsent Hcode Hwe Hitems Hnth.
  destruct (success_slot _ _ _ _ _ _ _ _ _ _ Hlookup Hkey Hne Hcall Hsent Hcode
              Hwe Hitems Hnth) as (f & start & finish & -> & Hfor).
  destruct (item_reads f) as (_ & _ & -> & -> & -> & -> & -> & ->).
  split.
  - apply forEach_fields in Hfor as (_ & _ & H3 & H4 & H5 & H6 & H7 & H8).
    repeat split; intros Hnone; f_equal; auto.
  - rewrite !last_tagged_known by (simpl; tauto).
    destruct (forEach_last _ _ _ _ Hfor) as (H1 & H2 & H3 & H4 & H5 & H6).
    repeat split; intros element Hlast;
      try (f_equal; auto; fail).
    destruct (H2 _ Hlast) as (s & Hs & Hrain).
    exists s; split; [exact Hs | rewrite Hrain; reflexivity].
Qed.

End Shapes.

(* ================================================================== *)
(** ** The further properties at sample requests *)
(* ================================================================== *)

Lemma invalid_city_sample :
  final (getWeatherByCity ascii_toLowerCase sample_env "Tokyo")
  = Sent (invalid_city "Tokyo")
  /\ final (getWeatherByCity ascii_toLowerCase sample_env "valueOf")
     = Sent (invalid_city "valueOf").
Proof.
  split;
    apply (invalid_city_exactly_when_lookup_fails ascii_toLowerCase);
    split; simpl; intuition discriminate.
Defined.

Lemma fulfilled_call_sample :
  exists r,
    final (getWeatherByCity ascii_toLowerCase
             (env_with (Some "KEY") (Fulfilled (mkResponse 200 (VString "<html>"))))
             "tainan") = Sent r
    /\ In (code r) [ 200; 404; 500 ]%Z.
Proof.
  destruct (fulfilled_call_is_answered ascii_toLowerCase
              (env_with (Some "KEY") (Fulfilled (mkResponse 200 (VString "<html>"))))
              "tainan" (Own "臺南市") "KEY" (mkResponse 200 (VString "<html>"))
              eq_refl eq_refl ltac:(discriminate) eq_refl)
    as (r & Hsent & _ & Hcode).
  exists r; split; assumption.
Defined.

Lemma unhandled_sample :
  exists thrown,
    final (getWeatherByCity ascii_toLowerCase
             (env_with (Some "KEY") (rejection 502 VNull)) "taoyuan")
    = Unhandled thrown.
Proof.
  apply (unhandled_exactly_on_response_without_body ascii_toLowerCase).
  exists (Own "桃園市"), "KEY",
         (mkError "Request failed" (Some (mkResponse 502 VNull))),
         (mkResponse 502 VNull).
  repeat split; discriminate.
Defined.

Lemma no_data_sample :
  final (getWeatherByCity ascii_toLowerCase
           (env_with (Some "KEY") (Fulfilled (mkResponse 200 payload_null_location)))
           "taipei")
  = Sent (no_data (Own "臺北市")).
Proof.
  apply (no_data_exactly_on_falsy_first_location ascii_toLowerCase
           (env_with (Some "KEY") (Fulfilled (mkResponse 200 payload_null_location)))
           "taipei" (Own "臺北市") "KEY" (mkResponse 200 payload_null_location)
           eq_refl eq_refl ltac:(discriminate) eq_refl).
  split; reflexivity.
Defined.

Lemma shorter_time_array_sample :
  final (getWeatherByCity ascii_toLowerCase
           (env_with (Some "KEY")
              (Fulfilled (mkResponse 200 (payload_with "臺北市" ragged_shorter))))
           "taipei")
  = Sent server_error.
Proof.
  eapply (shorter_time_array_answers_500 ascii_toLowerCase
            (env_with (Some "KEY")
               (Fulfilled (mkResponse 200 (payload_with "臺北市" ragged_shorter))))
            "taipei" (Own "臺北市") "KEY"
            (mkResponse 200 (payload_with "臺北市" ragged_shorter))
            _ [] _ _ _ (nth 1 ragged_shorter VUndefined));
    try reflexivity; [discriminate | simpl; tauto | simpl; lia].
Defined.


Lemma success_reply_sample :
  List.length (expected_forecasts sample_elements 2) = 2%nat
  /\ VString "臺北市" = get_opt (located sample_payload) "locationName".
Proof.
  destruct (success_reply_contents ascii_toLowerCase sample_env "taipei"
              (Own "臺北市") "KEY" (mkResponse 200 sample_payload)
              (VString "臺北市") (VString "三十六小時天氣預報")
              (expected_forecasts sample_elements 2)
              eq_refl eq_refl ltac:(discriminate) eq_refl eq_refl)
    as (Hcity & _ & Hslots).
  split; [ | exact Hcity].
  apply (Hslots (entries (hd VUndefined sample_elements)) eq_refl).
Defined.

Lemma rain_sample :
  exists s,
    get (forecast_object (expected_slot sample_elements 1)) "rain"
    = Return (VString (s ++ "%")).
Proof.
  apply (rain_is_empty_or_percent ascii_toLowerCase sample_env "taipei"
           (Own "臺北市") "KEY" (mkResponse 200 sample_payload)
           (success (VString "臺北市") (VString "三十六小時天氣預報")
                    (expected_forecasts sample_elements 2))
           sample_elements
           (map forecast_object (expected_forecasts sample_elements 2))
           (forecast_object (expected_slot sample_elements 1))
           eq_refl eq_refl ltac:(discriminate) eq_refl eq_refl eq_refl eq_refl
           eq_refl);
    [simpl; tauto | reflexivity].
Defined.

Lemma credential_sample :
  final (getWeatherByCity ascii_toLowerCase
           (env_with (Some "KEY-A") (rejection 503 (VString "busy"))) "taipei")
  = final (getWeatherByCity ascii_toLowerCase
             (env_with (Some "KEY-B") (rejection 503 (VString "busy"))) "taipei")
  /\ logs (trace (getWeatherByCity ascii_toLowerCase
                    (env_with (Some "KEY-A") (rejection 503 (VString "busy"))) "taipei"))
     = logs (trace (getWeatherByCity ascii_toLowerCase
                      (env_with (Some "KEY-B") (rejection 503 (VString "busy"))) "taipei")).
Proof.
  destruct (credential_stays_in_the_request ascii_toLowerCase
              (env_with (Some "KEY-A") (rejection 503 (VString "busy")))
              (env_with (Some "KEY-B") (rejection 503 (VString "busy")))
              "taipei" (Own "臺北市") "KEY-A" "KEY-B"
              eq_refl eq_refl ltac:(discriminate) eq_refl ltac:(discriminate) eq_refl)
    as (Hfinal & Hlogs & _).
  split; assumption.
Defined.

Lemma envelope_sample :
  exists text,
    get (json (upstream_error (mkResponse 200 (VObject [])) VUndefined)) "error"
    = Return (VString text)
    /\ In text error_texts.
Proof.
  destruct (replies_are_success_or_envelope ascii_toLowerCase
              (env_with (Some "KEY") (rejection 200 (VObject [])))
              "taipei" (upstream_error (mkResponse 200 (VObject [])) VUndefined)
              eq_refl)
    as [(_ & Hsuccess & _) | (text & Herror & Hin & _)].
  - discriminate Hsuccess.
  - exists text; split; assumption.
Defined.

Lemma fields_sample :
  get (forecast_object (expected_slot sample_elements 1)) "weather"
  = Return (VString "陰短暫雨")
  /\ exists s,
       get (forecast_object (expected_slot sample_elements 1)) "rain"
       = Return (VString (s ++ "%")).
Proof.
  destruct (fields_come_from_the_last_tagged_element ascii_toLowerCase sample_env
              "taipei" (Own "臺北市") "KEY" (mkResponse 200 sample_payload)
              (success (VString "臺北市") (VString "三十六小時天氣預報")
                       (expected_forecasts sample_elements 2))
              sample_elements
              (map forecast_object (expected_forecasts sample_elements 2)) 1
              (forecast_object (expected_slot sample_elements 1))
              eq_refl eq_refl ltac:(discriminate) eq_refl eq_refl eq_refl eq_refl
              eq_refl eq_refl)
    as (Hweather & Hrain & _).
  split.
  - apply (Hweather (sample_element "Wx" "晴時多雲" "陰短暫雨") eq_refl).
  - destruct (Hrain (sample_element "PoP" "20" "70") eq_refl) as (s & _ & Hs).
    exists s; exact Hs.
Defined.

(** C7, as amended, on the sample elements followed by one tagged [UVI]:
    the slots are those of the sample elements alone. *)
Lemma C7_sample :
  final (getWeatherByCity ascii_toLowerCase
           (env_with (Some "KEY")
              (Fulfilled (mkResponse 200 (payload_with "臺北市" sample_elements_with_other))))
           "taipei")
  = Sent (success (VString "臺北市") (VString "三十六小時天氣預報")
                  (expected_forecasts sample_elements 2))
  /\ get (forecast_object (expected_slot sample_elements 0)) "windSpeed"
     = Return (VString "")
  /\ get (forecast_object (expected_slot sample_elements 0)) "weather"
     = Return (VString "晴時多雲").
Proof.
  destruct (C7_unknown_tags_contribute_nothing ascii_toLowerCase
              (env_with (Some "KEY")
                 (Fulfilled (mkResponse 200
                               (payload_with "臺北市" sample_elements_with_other))))
              "taipei" (Own "臺北市") "KEY"
              (mkResponse 200 (payload_with "臺北市" sample_elements_with_other))
              (success (VString "臺北市") (VString "三十六小時天氣預報")
                       (expected_forecasts sample_elements 2))
              sample_elements_with_other
              (map forecast_object (expected_forecasts sample_elements 2)) 0
              (forecast_object (expected_slot sample_elements 0))
              eq_refl eq_refl ltac:(discriminate) eq_refl eq_refl eq_refl eq_refl
              eq_refl eq_refl)
    as ((_ & _ & _ & _ & _ & Hwind) & (Hweather & _)).
  split; [reflexivity | ].
  split; [apply Hwind; reflexivity | ].
  apply (Hweather (sample_element "Wx" "晴時多雲" "陰短暫雨")); reflexivity.
Defined.
